(** * Trust-and-audit core of Capstone-Backend: lockout tracker, fraud scorer,
      compliance runner and audit retention

    Shallow embedding of
    - class [AccountLockout] of the rate limiting and lockout middleware,
    - class [FraudDetectionSystem] and the audit schemas of soc-controls.js,
    - class [ComplianceMonitor] of the continuous monitoring module.

    Conventions.
    - A JavaScript [Number] that holds a count or a millisecond timestamp is a
      [Z]: all such values stay far below 2^53, where Number arithmetic on
      integers is exact.  A Number that holds an amount of money, that comes
      out of [parseInt], or that is divided and formatted with [toFixed], is
      a binary64 [float] with the IEEE comparisons.
    - A JavaScript string is a [string].
    - [Date.now()] is an explicit argument [now] of every operation that reads
      the clock.
    - A [Map] used through [get]/[set]/[delete] only is a [gmap]; the run
      history, which is enumerated in insertion order, is an association
      list. *)

From Stdlib Require Import ZArith List String Ascii Bool Lia Floats DecimalString
  Sorted.
From stdpp Require Import base option list gmap strings fin_maps.

Local Open Scope string_scope.
Local Open Scope Z_scope.

(** [Array.prototype.push] of one element. *)
Definition push {A : Type} (l : list A) (x : A) : list A := (l ++ [x])%list.

(** ** Account lockout *)

Module Lockout.

(** The value stored under each key of [this.attempts]:
    [{ count, last, ips, locked }], where [locked] is [null] or a time. *)
Record record : Type := mkRecord {
  count  : Z;
  last   : Z;
  ips    : list string;
  locked : option Z
}.

(** Constructor of [AccountLockout]: [max], [lockTime], [resetTime]. *)
Definition max : Z := 5.
Definition lockTime : Z := 30 * 60 * 1000.
Definition resetTime : Z := 15 * 60 * 1000.

(** What [isLocked] returns: [{ locked: false }] or
    [{ locked: true, remainingMinutes, unlockAt }].  [unlockAt] is kept as the
    epoch time that the source renders with [toISOString]. *)
Inductive status : Type :=
| NotLocked
| Locked (remainingMinutes : Z) (unlockAt : Z).

(** Truthiness of [record.locked] as tested by [!record?.locked] and
    [rec.locked && ...]: [null] and [0] are falsy. *)
Definition truthy (l : option Z) : bool :=
  match l with
  | Some v => negb (v =? 0)
  | None => false
  end.

(** [Math.ceil(a / b)] for integers [a] and [b > 0]. *)
Definition ceil_div (a b : Z) : Z := - ((- a) / b).

Section WithLowerCase.

(** [String.prototype.toLowerCase]; the tracker only ever uses it to
    normalise the key, so nothing about it is assumed. *)
Variable toLowerCase : string -> string.

(** [recordFailedAttempt(email, ip)] with [Date.now() = now]. *)
Definition recordFailedAttempt (now : Z) (email ip : string)
    (attempts : gmap string record) : gmap string record :=
  let key := toLowerCase email in
  let fresh := {| count := 1; last := now; ips := [ip]; locked := None |} in
  match attempts !! key with
  | None => <[key := fresh]> attempts
  | Some r =>
      if now - last r >? resetTime then <[key := fresh]> attempts
      else
        let count' := count r + 1 in
        <[key := {| count := count';
                    last := now;
                    ips := push (ips r) ip;
                    locked := if count' >=? max then Some (now + lockTime)
                              else locked r |}]> attempts
  end.

(** [recordSuccessfulLogin(email)]. *)
Definition recordSuccessfulLogin (email : string)
    (attempts : gmap string record) : gmap string record :=
  delete (toLowerCase email) attempts.

(** [isLocked(email)] with [Date.now() = now]: the answer and the map after
    the call (an expired record is deleted as a side effect). *)
Definition isLocked (now : Z) (email : string)
    (attempts : gmap string record) : status * gmap string record :=
  let key := toLowerCase email in
  match attempts !! key with
  | None => (NotLocked, attempts)
  | Some r =>
      if negb (truthy (locked r)) then (NotLocked, attempts)
      else
        match locked r with
        | None => (NotLocked, attempts)
        | Some l =>
            if now <? l then (Locked (ceil_div (l - now) 60000) l, attempts)
            else (NotLocked, delete key attempts)
        end
  end.

(** The test of [cleanup()] on one record. *)
Definition stale (now : Z) (r : record) : bool :=
  truthy (locked r) &&
  match locked r with Some l => l <? now | None => false end &&
  (now - last r >? resetTime).

(** [cleanup()]: every stale record is deleted. *)
Definition cleanup (now : Z) (attempts : gmap string record)
    : gmap string record :=
  filter (fun kv => stale now (snd kv) = false) attempts.

(** [unlockAccount(email)]: whether a record existed, and the map after. *)
Definition unlockAccount (email : string) (attempts : gmap string record)
    : bool * gmap string record :=
  let key := toLowerCase email in
  match attempts !! key with
  | Some _ => (true, delete key attempts)
  | None => (false, attempts)
  end.

(** Calls on the tracker, each with the clock reading it makes. *)
Inductive call : Type :=
| Failed (now : Z) (email ip : string)
| Succeeded (email : string)
| Asked (now : Z) (email : string)
| Swept (now : Z)
| Unlocked (email : string).

Definition step (attempts : gmap string record) (c : call)
    : gmap string record :=
  match c with
  | Failed now email ip => recordFailedAttempt now email ip attempts
  | Succeeded email => recordSuccessfulLogin email attempts
  | Asked now email => snd (isLocked now email attempts)
  | Swept now => cleanup now attempts
  | Unlocked email => snd (unlockAccount email attempts)
  end.

(** The tracker after a history of calls, starting from [new Map()]. *)
Definition after (calls : list call) : gmap string record :=
  fold_left step calls ∅.

(** A lock, when present, was set by the failure that is recorded as the
    last one, and the count had reached [max]. *)
Definition lock_ok (r : record) : Prop :=
  forall l, locked r = Some l -> l = last r + lockTime /\ max <= count r.

End WithLowerCase.

(** The two records [recordFailedAttempt] can store: a new one, and the
    old one with the failure added. *)
Definition fresh (now : Z) (ip : string) : record :=
  {| count := 1; last := now; ips := [ip]; locked := None |}.

Definition bumped (now : Z) (ip : string) (r : record) : record :=
  {| count := count r + 1;
     last := now;
     ips := push (ips r) ip;
     locked := if count r + 1 >=? max then Some (now + lockTime)
               else locked r |}.

(** Lower-casing of the letters A-Z, for concrete runs. *)
Definition ascii_lower (c : ascii) : ascii :=
  let n := nat_of_ascii c in
  if ((65 <=? n) && (n <=? 90))%nat then ascii_of_nat (n + 32) else c.

Fixpoint lower (s : string) : string :=
  match s with
  | EmptyString => EmptyString
  | String c s' => String (ascii_lower c) (lower s')
  end.

End Lockout.

(** ** Promises *)

(** How an awaited promise settles: with a value, or with a thrown error of
    which the source only ever reads [e.message]. *)
Inductive outcome (A : Type) : Type :=
| Resolved (a : A)
| Rejected (message : string).

Arguments Resolved {A} a.
Arguments Rejected {A} message.

Module Promise.

Definition bind {A B : Type} (p : outcome A) (k : A -> outcome B)
    : outcome B :=
  match p with
  | Resolved a => k a
  | Rejected m => Rejected m
  end.

(** [try { body } catch (e) { handler(e.message) }]. *)
Definition try_catch {A : Type} (body : outcome A) (handler : string -> A)
    : A :=
  match body with
  | Resolved a => a
  | Rejected m => handler m
  end.

(** [await Promise.all(ps)]: all the values in order, or a rejection when a
    member rejects. *)
Fixpoint all {A : Type} (ps : list (outcome A)) : outcome (list A) :=
  match ps with
  | [] => Resolved []
  | p :: ps' =>
      bind p (fun a => bind (all ps') (fun rest => Resolved (a :: rest)))
  end.

End Promise.

#[global] Instance outcome_bind : MBind outcome :=
  fun A B k p => Promise.bind p k.

(** ** Fraud scorer (soc-controls.js, [FraudDetectionSystem]) *)

Module Fraud.

(** The fields of a transaction [t] that [analyzeTransaction] reads. *)
Record transaction : Type := mkTransaction {
  id     : string;
  userId : string;
  amount : float;
  ip     : string
}.

(** A stored transaction as the history query returns it. *)
Record document : Type := mkDocument {
  doc_userId    : string;
  doc_amount    : float;
  doc_createdAt : Z
}.

(** A model object with the one query the scorer issues:
    [find({ userId, createdAt: { $gte: since } }).sort({ createdAt: -1 })],
    awaited. *)
Record model : Type := mkModel {
  find_since : string -> Z -> outcome (list document)
}.

(** What an identifier evaluates to in the scope of a module. *)
Inductive binding (A : Type) : Type :=
| Unbound
| Bound (a : A).

Arguments Unbound {A}.
Arguments Bound {A} a.

(** Module scope of soc-controls.js.  The file imports [chalk], [mongoose]
    and [crypto], and declares the models [FinancialAuditLog],
    [SecurityAuditLog], [ConfidentialAccessLog], [PrivacyAuditLog],
    [TransactionReview] and [PaymentDiscrepancy].  It neither imports nor
    declares [Transaction], and no other file of the repository defines or
    exports one: evaluating [Transaction] raises a ReferenceError. *)
Definition Transaction : binding model := Unbound.

(** [this.thresholds]. *)
Definition HIGH_VALUE : float := 1000%float.
Definition VELOCITY : nat := 5.

Inductive decision : Type := APPROVED | BLOCKED.

(** The object [analyzeTransaction] returns. *)
Record assessment : Type := mkAssessment {
  approved             : bool;
  riskScore            : Z;
  flags                : list string;
  requiresManualReview : bool;
  decision_of          : decision
}.

(** [getRecentTransactions(userId, ms)] in a scope where [Transaction]
    evaluates as [scope] says:
    [try { return await Transaction.find(...).sort(...) } catch { return [] }]. *)
Definition getRecentTransactions_in (scope : binding model) (now : Z)
    (userId : string) (ms : Z) : list document :=
  match scope with
  | Unbound => []
  | Bound m => Promise.try_catch (find_since m userId (now - ms)) (fun _ => [])
  end.

(** The three patterns of [checkIPReputation]:
    [/^10\./], [/^192\.168\./], [/^172\.(1[6-9]|2[0-9]|3[0-1])\./]. *)
Definition digit_in (lo hi : nat) (c : ascii) : bool :=
  let n := nat_of_ascii c in ((48 + lo <=? n) && (n <=? 48 + hi))%nat.

Definition matches_10 (ip : string) : bool := String.prefix "10." ip.

Definition matches_192_168 (ip : string) : bool := String.prefix "192.168." ip.

Definition matches_172 (ip : string) : bool :=
  String.prefix "172." ip &&
  match substring 4 3 ip with
  | String a (String b (String c EmptyString)) =>
      (((a =? "1")%char && digit_in 6 9 b)
       || ((a =? "2")%char && digit_in 0 9 b)
       || ((a =? "3")%char && digit_in 0 1 b))
      && (c =? ".")%char
  | _ => false
  end.

Record reputation : Type := mkReputation {
  isProxy : bool;
  isTor   : bool;
  isVPN   : bool
}.

(** [checkIPReputation(ip)]. *)
Definition checkIPReputation (ip : string) : reputation :=
  let suspicious := [matches_10; matches_192_168; matches_172] in
  {| isProxy := existsb (fun p => p ip) suspicious;
     isTor := false;
     isVPN := false |}.

(** The body of [analyzeTransaction] after [recent] has been fetched.  The
    audit event that the source writes through [logSecurityEvent] (which
    catches its own storage errors) carries the same score, flags and
    decision and does not feed back into the result. *)
Definition score_with (recent : list document) (t : transaction)
    : assessment :=
  let score := 0 in
  let flags := @nil string in
  let '(score, flags) :=
    if (VELOCITY <=? length recent)%nat
    then (score + 30, push flags "HIGH_VELOCITY") else (score, flags) in
  let '(score, flags) :=
    if (HIGH_VALUE <? amount t)%float
    then (score + 20, push flags "HIGH_VALUE") else (score, flags) in
  let '(score, flags) :=
    if (0 <? length
              (filter (fun r => (doc_amount r =? amount t)%float = true)
                      recent))%nat
    then (score + 25, push flags "DUPLICATE") else (score, flags) in
  let rep := checkIPReputation (ip t) in
  let '(score, flags) :=
    if isProxy rep || isTor rep
    then (score + 40, push flags "SUSPICIOUS_IP") else (score, flags) in
  let decision := if score >? 50 then BLOCKED else APPROVED in
  {| approved := score <=? 50;
     riskScore := score;
     flags := flags;
     requiresManualReview := (score >? 30) && (score <=? 50);
     decision_of := decision |}.

(** [analyzeTransaction(t)] in a given scope, with [Date.now() = now]. *)
Definition analyzeTransaction_in (scope : binding model) (now : Z)
    (t : transaction) : assessment :=
  score_with (getRecentTransactions_in scope now (userId t) 600000) t.

(** [analyzeTransaction(t)] as the module defines it. *)
Definition analyzeTransaction (now : Z) (t : transaction) : assessment :=
  analyzeTransaction_in Transaction now t.

End Fraud.

(** ** Audit schemas (soc-controls.js) *)

Module Audit.

Inductive category : Type := FINANCIAL | SECURITY | CONFIDENTIAL | PRIVACY.

(** One index declaration of a schema: the key specification and, for a
    time-to-live index, [expireAfterSeconds]. *)
Record index : Type := mkIndex {
  keys               : list (string * Z);
  expireAfterSeconds : option Z
}.

Record schema : Type := mkSchema {
  collection : string;
  indexes    : list index
}.

(** [base]: the field [timestamp] is declared with [index: true]. *)
Definition base : list index :=
  [ {| keys := [("timestamp", 1)]; expireAfterSeconds := None |} ].

(** [Schema.prototype.index(keys, options)]. *)
Definition add_index (s : schema) (i : index) : schema :=
  {| collection := collection s; indexes := push (indexes s) i |}.

Definition FinancialSchema : schema :=
  add_index {| collection := "financial_audit_logs"; indexes := base |}
            {| keys := [("timestamp", 1)];
               expireAfterSeconds := Some 220752000 |}.

Definition SecuritySchema : schema :=
  add_index {| collection := "security_audit_logs"; indexes := base |}
            {| keys := [("timestamp", 1)];
               expireAfterSeconds := Some 7776000 |}.

Definition ConfidentialSchema : schema :=
  add_index {| collection := "confidential_access_logs"; indexes := base |}
            {| keys := [("timestamp", 1)];
               expireAfterSeconds := Some 7776000 |}.

Definition PrivacySchema : schema :=
  add_index {| collection := "privacy_audit_logs"; indexes := base |}
            {| keys := [("timestamp", 1)];
               expireAfterSeconds := Some 220752000 |}.

(** The schema behind the model each logger writes to:
    [logFinancialTransaction], [logSecurityEvent] and
    [logUnauthorizedAccess], [logConfidentialAccess], [logPrivacyEvent]. *)
Definition schema_of (c : category) : schema :=
  match c with
  | FINANCIAL => FinancialSchema
  | SECURITY => SecuritySchema
  | CONFIDENTIAL => ConfidentialSchema
  | PRIVACY => PrivacySchema
  end.

(** The time-to-live declarations of a schema, in declaration order. *)
Definition retention_seconds (s : schema) : list Z :=
  omap expireAfterSeconds (indexes s).

Definition day : Z := 24 * 60 * 60.
Definition year : Z := 365 * day.

End Audit.

(** ** Numbers that are divided and formatted *)

Module JsNumber.

(** The Number with the value of a count. *)
Definition of_Z (z : Z) : float :=
  if z <? 0 then PrimFloat.opp (PrimFloat.of_uint63 (Uint63.of_Z (- z)))
  else PrimFloat.of_uint63 (Uint63.of_Z z).

Definition decimal (n : Z) : string :=
  NilZero.string_of_uint (N.to_uint (Z.to_N n)).

Fixpoint zeros (k : nat) : string :=
  match k with
  | O => ""
  | S k' => String "0" (zeros k')
  end.

(** Steps 9-10 of [Number.prototype.toFixed]: the digits of [n] with a
    decimal point before the last [f] of them. *)
Definition fixed_digits (f : nat) (n : Z) : string :=
  let m := decimal n in
  if (f =? 0)%nat then m
  else
    let m := (zeros (f + 1 - String.length m) ++ m)%string in
    let k := String.length m in
    (substring 0 (k - f) m ++ "." ++ substring (k - f) f m)%string.

(** The integer [n] for which [n / 10^f - m * 2^e] is closest to zero, the
    larger one of two. *)
Definition nearest (f : nat) (m : positive) (e : Z) : Z :=
  let scaled := Z.pos m * 10 ^ Z.of_nat f in
  if 0 <=? e then scaled * 2 ^ e
  else (2 * scaled + 2 ^ (- e)) / 2 ^ (1 - e).

(** [x.toFixed(f)] for [x] below 10^21 in magnitude (above, the runtime
    switches to exponent notation).  The values formatted here are
    quotients of counts, times 100: they are never negative and never that
    large. *)
Definition toFixed (f : nat) (x : float) : string :=
  match Prim2SF x with
  | S754_nan => "NaN"
  | S754_infinity s => if s then "-Infinity" else "Infinity"
  | S754_zero _ => fixed_digits f 0
  | S754_finite s m e =>
      ((if s then "-" else "") ++ fixed_digits f (nearest f m e))%string
  end.

(** [`${((p / t) * 100).toFixed(f)}%`]. *)
Definition percent (f : nat) (p t : Z) : string :=
  (toFixed f (PrimFloat.mul (PrimFloat.div (of_Z p) (of_Z t)) 100%float)
   ++ "%")%string.

(** The exact quotient [p / t] rounded to [d] decimals (half up), written
    in decimal; [0 <= p] and [0 < t]. *)
Definition rounded_quotient (d : nat) (p t : Z) : string :=
  fixed_digits d ((2 * p * 10 ^ Z.of_nat d + t) / (2 * t)).

End JsNumber.

(** ** Compliance monitor *)

Module Compliance.

(** What a check returns.  The extra fields of two checks ([allowedOrigins],
    [currentExpiration], [recommended]) and [checkedAt] are not read by the
    runner and are left out. *)
Record CheckResult : Type := mkCheckResult {
  control : string;
  name    : string;
  passed  : bool;
  issues  : list string
}.

(** The summary [runContinuousChecks] returns and stores. *)
Record Summary : Type := mkSummary {
  timestamp   : Z;
  totalChecks : Z;
  sum_passed  : Z;
  sum_failed  : Z;
  passRate    : string;
  details     : list CheckResult
}.

(** Everything outside the monitor that one run observes: the environment
    variables, how each storage call settles, and the clock. *)
Record world : Type := mkWorld {
  SECRET_TOKEN             : option string;
  JWT_EXPIRES_TIME         : option string;
  JWT_REFRESH_EXPIRES_TIME : option string;
  (** [(await import('mongoose')).default.connection.readyState] *)
  readyState               : outcome Z;
  (** [SecurityAuditLog.countDocuments().maxTimeMS(5000)] in [checkDatabase] *)
  probe_count              : outcome Z;
  (** [countDocuments({ timestamp: { $gte: ... } })] in [checkLogs] *)
  recent_count             : outcome Z;
  (** [countDocuments()] in [checkLogs] *)
  total_count              : outcome Z;
  (** [SecurityAuditLog.create(eventData)] in the runner *)
  create_event             : outcome unit;
  (** [SecurityAuditLog.create(data)] inside [logSecurityEvent], from [alert] *)
  create_alert             : outcome unit;
  (** [new Date()] of the summary and [Date.now()] of [results.set] *)
  summary_time             : Z;
  store_time               : Z
}.

(** Truthiness of [process.env.X]: unset and empty are falsy. *)
Definition set_and_nonempty (v : option string) : bool :=
  match v with
  | Some s => negb (s =? "")%string
  | None => false
  end.

(** [s.endsWith(suffix)]. *)
Definition endsWith (s suffix : string) : bool :=
  let n := String.length s in
  let k := String.length suffix in
  ((k <=? n)%nat && (substring (n - k) k s =? suffix)%string).

(** A result whose [passed] is [issues.length === 0]. *)
Definition result (control name : string) (issues : list string)
    : CheckResult :=
  {| control := control;
     name := name;
     passed := (length issues =? 0)%nat;
     issues := issues |}.

Section WithNumberPrimitives.

(** The global [parseInt] and the conversion of a Number inside a template
    literal.  The checks only compare and print what they yield, so nothing
    about them is assumed. *)
Variable parseInt : string -> float.
Variable numberToString : float -> string.

Definition checkAuth (w : world) : outcome CheckResult :=
  let issues := [] in
  let issues :=
    if negb (set_and_nonempty (SECRET_TOKEN w))
       || (String.length (default "" (SECRET_TOKEN w)) <? 32)%nat
    then push issues "JWT secret not configured or too weak"
    else issues in
  Resolved (result "CC6.1" "Authentication Controls" issues).

Definition checkEncryption (w : world) : outcome CheckResult :=
  Resolved (result "CC6.3/CC6.4" "Encryption Controls" []).

(** [stateMap[dbState] || 'unknown state']. *)
Definition stateMap (dbState : Z) : string :=
  if dbState =? 0 then "disconnected"
  else if dbState =? 2 then "connecting"
  else if dbState =? 3 then "disconnecting"
  else "unknown state".

(** [checkDatabase]: an issue pushed before the probe throws stays in the
    list, and the handler adds its own. *)
Definition checkDatabase (w : world) : outcome CheckResult :=
  let issues := [] in
  let issues :=
    match readyState w with
    | Rejected m =>
        push issues ("Database connectivity error: " ++ m)%string
    | Resolved dbState =>
        let issues :=
          if negb (dbState =? 1)
          then push issues
                 ("Database not connected: " ++ stateMap dbState)%string
          else issues in
        match probe_count w with
        | Rejected m =>
            push issues ("Database connectivity error: " ++ m)%string
        | Resolved _ => issues
        end
    end in
  Resolved (result "A1.2" "Database Connectivity" issues).

Definition checkLogs (w : world) : outcome CheckResult :=
  let issues := [] in
  let issues :=
    Promise.try_catch
      (recent ← recent_count w;
       if recent =? 0 then
         total ← total_count w;
         Resolved
           (if total >? 10
            then push issues
                   "No security audit logs in the last hour (may indicate logging failure)"
            else issues)
       else Resolved issues)
      (fun m => push issues ("Error checking logs: " ++ m)%string) in
  Resolved (result "C1.2" "Access Log Controls" issues).

Definition checkRateLimit (w : world) : outcome CheckResult :=
  Resolved (result "CC6.1" "Rate Limiting Controls" []).

Definition checkCORS (w : world) : outcome CheckResult :=
  let issues := [] in
  let allowed :=
    ["http://localhost:5173"; "https://www.avgallery.shop";
     "https://avgallery.shop"] in
  let issues :=
    if (length allowed =? 0)%nat then push issues "CORS whitelist is empty"
    else issues in
  let issues :=
    if existsb (fun o => (o =? "*")%string) allowed
    then push issues "CORS uses wildcard" else issues in
  Resolved (result "CC6.2" "CORS Configuration" issues).

Definition MAX_HOURS : float := 6%float.

Definition checkTokenExpiry (w : world) : outcome CheckResult :=
  let issues := [] in
  let expiry :=
    if set_and_nonempty (JWT_EXPIRES_TIME w)
    then default "" (JWT_EXPIRES_TIME w) else "24h" in
  let hours :=
    if endsWith expiry "h" then parseInt expiry
    else PrimFloat.mul (parseInt expiry) 24%float in
  let issues :=
    if (MAX_HOURS <? hours)%float
    then push issues
           ("Token expiration exceeds recommendation: "
            ++ numberToString hours ++ "h > "
            ++ numberToString MAX_HOURS ++ "h")%string
    else issues in
  let issues :=
    if negb (set_and_nonempty (JWT_REFRESH_EXPIRES_TIME w))
       && (12 <? hours)%float
    then push issues "Long token expiration without refresh token system"
    else issues in
  Resolved (result "CC6.1" "Token Expiration Policy" issues).

(** The checks in the order of the array given to [Promise.all]. *)
Definition registered (w : world) : list (outcome CheckResult) :=
  [ checkAuth w; checkEncryption w; checkDatabase w; checkLogs w;
    checkRateLimit w; checkCORS w; checkTokenExpiry w ].

(** [failed], [total], [passed] and the summary object. *)
Definition summarize (time : Z) (checks : list CheckResult) : Summary :=
  let failed := List.filter (fun r => negb (passed r)) checks in
  let total := Z.of_nat (length checks) in
  let passed := total - Z.of_nat (length failed) in
  {| timestamp := time;
     totalChecks := total;
     sum_passed := passed;
     sum_failed := Z.of_nat (length failed);
     passRate := JsNumber.percent 1 passed total;
     details := checks |}.

(** [Map.prototype.set]: an existing key keeps its place, a new one goes
    last. *)
Fixpoint map_set {V : Type} (k : Z) (v : V) (m : list (Z * V))
    : list (Z * V) :=
  match m with
  | [] => [(k, v)]
  | (k', v') :: m' =>
      if k' =? k then (k, v) :: m' else (k', v') :: map_set k v m'
  end.

(** [try { await Model.create(data) } catch (e) { console.error(...) }]. *)
Definition logged (write : outcome unit) : outcome unit :=
  Resolved (Promise.try_catch write (fun _ => tt)).

(** [alert(a)]: console output, then [logSecurityEvent]. *)
Definition alert (w : world) (failedChecks : list CheckResult)
    : outcome unit :=
  logged (create_alert w).

(** [runContinuousChecks()] on the history [this.results]: the summary
    returned and the history after the call.  The in-memory [auditLog] tail
    is written but never read here and is left out. *)
Definition runContinuousChecks (w : world) (results : list (Z * Summary))
    : outcome (Summary * list (Z * Summary)) :=
  checks ← Promise.all (registered w);
  let failed := List.filter (fun r => negb (passed r)) checks in
  _ ← logged (create_event w);
  _ ← (if (0 <? length failed)%nat then alert w failed else Resolved tt);
  let summary := summarize (summary_time w) checks in
  Resolved (summary, map_set (store_time w) summary results).

End WithNumberPrimitives.

(** *** Reports *)

Inductive complianceStatus : Type := COMPLIANT | NON_COMPLIANT.

Record report : Type := mkReport {
  period             : string;
  startTime          : option Z;
  endTime            : Z;
  totalRuns          : Z;
  totalChecks_sum    : Z;
  totalPassed        : Z;
  totalFailed        : Z;
  averagePassRate    : string;
  complianceStatus_of : complianceStatus;
  results            : list Summary
}.

(** What [generateReport] returns: [{ period, message: 'No checks run',
    timestamp }] or a full report. *)
Inductive generated : Type :=
| NoChecksRun (period : string) (timestamp : Z)
| Report (r : report).

(** What reading a property of the object literal [ms] gives: one of its
    four own numbers, a member inherited from [Object.prototype], or
    [undefined]. *)
Inductive property : Type :=
| Own (n : Z)
| Inherited
| Absent.

Definition inherited_names : list string :=
  [ "constructor"; "__proto__"; "hasOwnProperty"; "isPrototypeOf";
    "propertyIsEnumerable"; "toLocaleString"; "toString"; "valueOf";
    "__defineGetter__"; "__defineSetter__"; "__lookupGetter__";
    "__lookupSetter__" ].

Definition ms (p : string) : property :=
  if (p =? "1h")%string then Own 3600000
  else if (p =? "24h")%string then Own 86400000
  else if (p =? "7d")%string then Own 604800000
  else if (p =? "30d")%string then Own 2592000000
  else if existsb (String.eqb p) inherited_names then Inherited
  else Absent.

(** [now - (ms[period] || ms['24h'])]; [None] is NaN, the result of
    subtracting a function or an object. *)
Definition start_of (now : Z) (p : string) : option Z :=
  match ms p with
  | Own n => Some (now - n)
  | Inherited => None
  | Absent => Some (now - 86400000)
  end.

(** [t >= start]. *)
Definition not_before (start : option Z) (t : Z) : bool :=
  match start with
  | Some s => s <=? t
  | None => false
  end.

(** [Array.from(this.results.entries()).filter(([t]) => t >= start)
      .map(([, r]) => r)]. *)
Definition in_window (start : option Z) (history : list (Z * Summary))
    : list Summary :=
  map snd (List.filter (fun e => not_before start (fst e)) history).

(** [results.reduce((s, r) => s + field(r), 0)]. *)
Definition sum_of (field : Summary -> Z) (rs : list Summary) : Z :=
  fold_left (fun s r => s + field r) rs 0.

(** [generateReport(period = '24h')] with [Date.now() = now]; [None] is a
    call without argument. *)
Definition generateReport (now : Z) (period : option string)
    (history : list (Z * Summary)) : generated :=
  let period := default "24h" period in
  let start := start_of now period in
  let results := in_window start history in
  if (length results =? 0)%nat then NoChecksRun period now
  else
    let total := sum_of totalChecks results in
    let passed := sum_of sum_passed results in
    let failed := sum_of sum_failed results in
    Report
      {| period := period;
         startTime := start;
         endTime := now;
         totalRuns := Z.of_nat (length results);
         totalChecks_sum := total;
         totalPassed := passed;
         totalFailed := failed;
         averagePassRate := JsNumber.percent 2 passed total;
         complianceStatus_of :=
           if failed =? 0 then COMPLIANT else NON_COMPLIANT;
         results := results |}.

(** A report states its status as COMPLIANT. *)
Definition reports_compliant (g : generated) : Prop :=
  exists r, g = Report r /\ complianceStatus_of r = COMPLIANT.

(** [parseInt] on a string that starts with decimal digits or with
    anything that is not white space, a sign or [0x]; for concrete runs. *)
Fixpoint leading_digits (s : string) (acc : option Z) : option Z :=
  match s with
  | String c s' =>
      let n := nat_of_ascii c in
      if ((48 <=? n) && (n <=? 57))%nat
      then leading_digits s'
             (Some (10 * default 0 acc + Z.of_nat (n - 48)))
      else acc
  | EmptyString => acc
  end.

Definition parse_decimal (s : string) : float :=
  match leading_digits s None with
  | Some n => JsNumber.of_Z n
  | None => nan
  end.

(** Rendering of a non-negative integer Number below 10^21. *)
Definition show_integer (x : float) : string := JsNumber.toFixed 0 x.

End Compliance.

(** ** Concrete runs used below *)

Module Scenarios.
Import Lockout Fraud Compliance.

(** Five failures one second apart. *)

Definition ann : string := "Ann@Example.com".
Definition ann_key : string := "ann@example.com".

Definition five : list call :=
  [ Failed 0 ann "198.51.100.7"; Failed 1000 ann "198.51.100.7";
    Failed 2000 ann "198.51.100.7"; Failed 3000 ann "198.51.100.7";
    Failed 4000 ann "198.51.100.7" ].

Definition locked_record : record :=
  {| count := 5; last := 4000;
     ips := ["198.51.100.7"; "198.51.100.7"; "198.51.100.7";
             "198.51.100.7"; "198.51.100.7"];
     locked := Some 1804000 |}.

(** The scenario of the fraud scorer. *)
Definition purchase : transaction :=
  {| id := "tx-1006"; userId := "u-17"; amount := 1500%float;
     ip := "203.0.113.9" |}.

(** Stored transactions, newest first; the first five fall in the ten
    minutes before 1000000. *)
Definition stored : list document :=
  [ {| doc_userId := "u-17"; doc_amount := 40%float; doc_createdAt := 990000 |};
    {| doc_userId := "u-17"; doc_amount := 1500%float;
       doc_createdAt := 900000 |};
    {| doc_userId := "u-17"; doc_amount := 25%float; doc_createdAt := 800000 |};
    {| doc_userId := "u-17"; doc_amount := 310%float;
       doc_createdAt := 700000 |};
    {| doc_userId := "u-17"; doc_amount := 12%float; doc_createdAt := 600000 |};
    {| doc_userId := "u-17"; doc_amount := 99%float; doc_createdAt := 100000 |};
    {| doc_userId := "u-02"; doc_amount := 1500%float;
       doc_createdAt := 950000 |} ].

(** A transaction model over [stored]. *)
Definition ledger : model :=
  {| find_since := fun user since =>
       Resolved
         (List.filter
            (fun d => (doc_userId d =? user)%string
                      && (since <=? doc_createdAt d))
            stored) |}.

Definition purchase_again : transaction :=
  {| id := "tx-1007"; userId := "u-17"; amount := 1500%float;
     ip := "203.0.113.9" |}.

(** A deployment in which every control passes. *)
Definition healthy : world :=
  {| SECRET_TOKEN := Some "k3Xq9vTz7LmP2aWd8RsY4uHb6NcJ1eGf";
     JWT_EXPIRES_TIME := Some "6h";
     JWT_REFRESH_EXPIRES_TIME := None;
     readyState := Resolved 1;
     probe_count := Resolved 120;
     recent_count := Resolved 4;
     total_count := Resolved 120;
     create_event := Resolved tt;
     create_alert := Resolved tt;
     summary_time := 1000;
     store_time := 1002 |}.

(** The same deployment without [SECRET_TOKEN]. *)
Definition unset_secret : world :=
  {| SECRET_TOKEN := None;
     JWT_EXPIRES_TIME := JWT_EXPIRES_TIME healthy;
     JWT_REFRESH_EXPIRES_TIME := JWT_REFRESH_EXPIRES_TIME healthy;
     readyState := readyState healthy;
     probe_count := probe_count healthy;
     recent_count := recent_count healthy;
     total_count := total_count healthy;
     create_event := create_event healthy;
     create_alert := create_alert healthy;
     summary_time := summary_time healthy;
     store_time := store_time healthy |}.

Definition timed_out : string :=
  "Operation security_audit_logs.countDocuments() buffering timed out after 10000ms".

(** The same deployment with the database disconnected: every storage call
    throws. *)
Definition database_down : world :=
  {| SECRET_TOKEN := SECRET_TOKEN healthy;
     JWT_EXPIRES_TIME := JWT_EXPIRES_TIME healthy;
     JWT_REFRESH_EXPIRES_TIME := JWT_REFRESH_EXPIRES_TIME healthy;
     readyState := Resolved 0;
     probe_count := Rejected timed_out;
     recent_count := Rejected timed_out;
     total_count := Rejected timed_out;
     create_event := Rejected timed_out;
     create_alert := Rejected timed_out;
     summary_time := summary_time healthy;
     store_time := store_time healthy |}.

End Scenarios.

(** ** Further operations of the lockout middleware *)

Module LockoutAdmin.
Import Lockout.

(** One element of the array [getLockedAccounts] returns; the [email] is
    the key it is stored under here. *)
Record entry : Type := mkEntry {
  attempts_of      : Z;
  lockedUntil      : Z;
  remainingMinutes : Z
}.

(** The test and the element of [getLockedAccounts] for one record:
    [rec.locked && rec.locked > now]. *)
Definition listed (now : Z) (r : record) : option entry :=
  match locked r with
  | Some l =>
      if truthy (locked r) && (l >? now)
      then Some {| attempts_of := count r;
                   lockedUntil := l;
                   remainingMinutes := ceil_div (l - now) 60000 |}
      else None
  | None => None
  end.

(** [getLockedAccounts()] with [Date.now() = now].  The array has one
    element per key of the map; it is kept here as a finite map from that
    key to the element, so the order of the array (the insertion order of
    the [Map]) is not represented. *)
Definition getLockedAccounts (now : Z) (attempts : gmap string record)
    : gmap string entry :=
  omap (listed now) attempts.

(** What the middleware does with the request: [next()], or the answer
    [res.status(423).json({ ..., lockedUntil, remainingMinutes })]. *)
Inductive reply : Type :=
| Next
| Status423 (remainingMinutes : Z) (lockedUntil : Z).

Section WithStringPrimitives.

(** [String.prototype.toLowerCase] and [String.prototype.trim]. *)
Variable toLowerCase : string -> string.
Variable trim : string -> string.

(** [checkAccountLockout(req, res, next)] with [req.body?.email = email]
    ([None] when absent) and [Date.now() = now]: the reply and the map
    afterwards. *)
Definition checkAccountLockout (now : Z) (email : option string)
    (attempts : gmap string record) : reply * gmap string record :=
  match email with
  | None => (Next, attempts)
  | Some e =>
      if (e =? "")%string then (Next, attempts)
      else
        let '(status, attempts') :=
          isLocked toLowerCase now (trim (toLowerCase e)) attempts in
        match status with
        | Locked m u => (Status423 m u, attempts')
        | NotLocked => (Next, attempts')
        end
  end.

(** A burst of failures for one address, given as clock readings and
    source addresses. *)
Definition burst (email : string) (failures : list (Z * string))
    (attempts : gmap string record) : gmap string record :=
  fold_left (fun a f => recordFailedAttempt toLowerCase (fst f) email (snd f) a)
            failures attempts.

End WithStringPrimitives.

(** Each record holds one address per counted failure, and carries a lock
    exactly when the count has reached [max]. *)
Definition shape_ok (r : record) : Prop :=
  count r = Z.of_nat (length (ips r)) /\ 1 <= count r /\
  (locked r = None <-> count r < max).

(** Removal of leading and trailing blanks, for concrete runs. *)
Fixpoint strip_left (s : string) : string :=
  match s with
  | String " " s' => strip_left s'
  | _ => s
  end.

Fixpoint strip_right (s : string) : string :=
  match s with
  | EmptyString => EmptyString
  | String c s' =>
      match strip_right s' with
      | EmptyString => if (c =? " ")%char then EmptyString
                       else String c EmptyString
      | t => String c t
      end
  end.

Definition strip (s : string) : string := strip_right (strip_left s).

End LockoutAdmin.

(** ** Further parts of soc-controls.js *)

(** Dotted-decimal addresses and the private ranges of RFC 1918, against
    which [checkIPReputation] is compared. *)
Module Ipv4.

Definition dec (n : nat) : string := NilZero.string_of_uint (Nat.to_uint n).

Definition dotted (a b c d : nat) : string :=
  (dec a ++ "." ++ dec b ++ "." ++ dec c ++ "." ++ dec d)%string.

(** 10.0.0.0/8, 172.16.0.0/12 and 192.168.0.0/16. *)
Definition rfc1918 (a b : nat) : bool :=
  ((a =? 10) || ((a =? 172) && (16 <=? b) && (b <=? 31))
   || ((a =? 192) && (b =? 168)))%nat.

End Ipv4.

(** The weights [analyzeTransaction] adds for its flags. *)
Definition flag_weight (flag : string) : Z :=
  if (flag =? "HIGH_VELOCITY")%string then 30
  else if (flag =? "HIGH_VALUE")%string then 20
  else if (flag =? "DUPLICATE")%string then 25
  else if (flag =? "SUSPICIOUS_IP")%string then 40
  else 0.

(** *** Role-based access ([FINANCIAL_ROLES], [checkFinancialPermission]) *)

Module Rbac.

(** The fields of [user] that the check reads. *)
Record user : Type := mkUser {
  user_id        : string;
  financialRoles : option (list string);
  user_ip        : option string
}.

(** What [FINANCIAL_ROLES[role]] evaluates to: the action list of one of the
    four declared roles, a member inherited from [Object.prototype], or
    [undefined]. *)
Inductive looked_up : Type :=
| Actions (l : list string)
| Member
| Missing.

Definition FINANCIAL_ROLES (role : string) : looked_up :=
  if (role =? "PAYMENT_PROCESSOR")%string
  then Actions ["process_payment"; "view_transaction"]
  else if (role =? "FINANCIAL_REVIEWER")%string
  then Actions ["review_transaction"; "approve_refund"; "view_reports"]
  else if (role =? "FINANCIAL_ADMIN")%string
  then Actions ["generate_report"; "reconcile_accounts";
                "view_all_transactions"]
  else if (role =? "SUPER_ADMIN")%string
  then Actions ["all_permissions"]
  else if existsb (String.eqb role) Compliance.inherited_names then Member
  else Missing.

(** [details] of the security event: [{ role }] or [{ roles }]. *)
Inductive details : Type :=
| ByRole (role : string)
| ByRoles (roles : list string).

(** The argument handed to [auditLogger.logSecurityEvent]. *)
Record event : Type := mkEvent {
  ev_userId   : string;
  ev_action   : string;
  ev_resource : string;
  ev_result   : string;
  ev_ip       : string;
  ev_severity : string;
  ev_details  : details
}.

(** [Array.prototype.includes] on strings. *)
Definition includes (l : list string) (x : string) : bool :=
  existsb (String.eqb x) l.

(** The loop [for (const role of roles)]: the first role whose action list
    includes the action.  [(FINANCIAL_ROLES[role] || []).includes] is not a
    function when the lookup yields an inherited member: the call throws. *)
Fixpoint first_granting (roles : list string) (action : string)
    : outcome (option string) :=
  match roles with
  | [] => Resolved None
  | role :: rest =>
      match FINANCIAL_ROLES role with
      | Actions l =>
          if includes l action then Resolved (Some role)
          else first_granting rest action
      | Missing => first_granting rest action
      | Member =>
          Rejected "(FINANCIAL_ROLES[role] || []).includes is not a function"
      end
  end.

(** [checkFinancialPermission(user, action)]: the answer and the security
    event it logs ([logSecurityEvent] catches its own storage errors). *)
Definition checkFinancialPermission (u : user) (action : string)
    : outcome (bool * event) :=
  let roles := default [] (financialRoles u) in
  let ip :=
    match user_ip u with
    | Some a => if (a =? "")%string then "127.0.0.1" else a
    | None => "127.0.0.1"
    end in
  let logged result severity details :=
    {| ev_userId := user_id u;
       ev_action := ("CHECK_PERMISSION:" ++ action)%string;
       ev_resource := "FINANCIAL_SYSTEM";
       ev_result := result;
       ev_ip := ip;
       ev_severity := severity;
       ev_details := details |} in
  if includes roles "SUPER_ADMIN"
  then Resolved (true, logged "GRANTED" "INFO" (ByRole "SUPER_ADMIN"))
  else
    granting ← first_granting roles action;
    match granting with
    | Some role => Resolved (true, logged "GRANTED" "INFO" (ByRole role))
    | None => Resolved (false, logged "DENIED" "MEDIUM" (ByRoles roles))
    end.

(** A role grants an action through its declared list. *)
Definition grants (role action : string) : Prop :=
  exists l, FINANCIAL_ROLES role = Actions l /\ In action l.

End Rbac.

(** *** [maskEmail] *)

Module Mask.





(** A string without the character [c]. *)
Fixpoint free_of (c : ascii) (s : string) : bool :=
  match s with
  | EmptyString => true
  | String x s' => negb (x =? c)%char && free_of c s'
  end.

End Mask.

(** *** [auditLogger.logConfidentialAccess] *)

Module Logger.

(** The argument [a]. *)
Record access : Type := mkAccess {
  a_userId         : string;
  a_action         : string;
  a_dataType       : string;
  a_dataId         : string;
  a_classification : string;
  a_ip             : string;
  a_userAgent      : string;
  a_result         : string
}.

(** The record written to [ConfidentialAccessLog] and returned. *)
Record data : Type := mkData {
  timestamp      : Z;
  eventType      : string;
  controlId      : string;
  userId         : string;
  action         : string;
  dataType       : string;
  dataId         : string;
  classification : string;
  ipAddress      : string;
  userAgent      : string;
  result         : string;
  severity       : string
}.

(** The SUSPICIOUS_ACCESS event handed to [logSecurityEvent]. *)
Record alert : Type := mkAlert {
  alert_userId   : string;
  alert_action   : string;
  alert_resource : string;
  alert_result   : string;
  alert_ip       : string;
  alert_severity : string;
  alert_count    : nat
}.

(** How the storage calls of one invocation settle. *)
Record store : Type := mkStore {
  (** [ConfidentialAccessLog.create(data)] inside [log] *)
  create_access : outcome unit;
  (** [ConfidentialAccessLog.find({ userId, classification: 'RESTRICTED',
      timestamp: { $gte: ... } })]: the timestamps of the matches *)
  find_recent   : outcome (list Z);
  (** [SecurityAuditLog.create(data)] inside [logSecurityEvent] *)
  create_alert  : outcome unit
}.

(** [logConfidentialAccess(a)] with [new Date() = now]: the data returned
    and the alert raised, if any.  The write of the record is wrapped in
    [try]/[catch] (inside [log]), and so is the write of the alert; the
    lookup of recent accesses is awaited outside any [try]. *)
Definition logConfidentialAccess (st : store) (now : Z) (a : access)
    : outcome (data * option alert) :=
  let restricted := (a_classification a =? "RESTRICTED")%string in
  let d :=
    {| timestamp := now;
       eventType := "CONFIDENTIAL_ACCESS";
       controlId := "C1.2";
       userId := a_userId a;
       action := a_action a;
       dataType := a_dataType a;
       dataId := a_dataId a;
       classification := a_classification a;
       ipAddress := a_ip a;
       userAgent := a_userAgent a;
       result := a_result a;
       severity := if restricted then "HIGH" else "MEDIUM" |} in
  _ ← Resolved (Promise.try_catch (create_access st) (fun _ => tt));
  if restricted then
    recent ← find_recent st;
    if (10 <? length recent)%nat then
      _ ← Resolved (Promise.try_catch (create_alert st) (fun _ => tt));
      Resolved
        (d, Some {| alert_userId := a_userId a;
                    alert_action := "SUSPICIOUS_ACCESS";
                    alert_resource := "CONFIDENTIAL_DATA";
                    alert_result := "ALERT";
                    alert_ip := a_ip a;
                    alert_severity := "CRITICAL";
                    alert_count := length recent |})
    else Resolved (d, None)
  else Resolved (d, None).

End Logger.

(** ** Further parts of the monitoring module *)

(** *** [ComplianceMonitor.getRecentEvents] *)

Module Events.

(** A stored audit document: its [timestamp], and an identifier standing
    for the rest of its fields, which are passed through unread. *)
Record document : Type := mkDocument {
  doc_timestamp : Z;
  doc_id        : string
}.

(** A document with the two fields the monitor adds. *)
Record event : Type := mkEvent {
  ev_timestamp  : Z;
  ev_id         : string;
  eventCategory : string;
  icon          : string
}.

(** How [Model.find({}).sort({ timestamp: -1 }).limit(limit).lean()]
    settles for each of the four models, given [limit]. *)
Record logs : Type := mkLogs {
  find_security     : Z -> outcome (list document);
  find_financial    : Z -> outcome (list document);
  find_privacy      : Z -> outcome (list document);
  find_confidential : Z -> outcome (list document)
}.

Definition tag (category icon : string) (d : document) : event :=
  {| ev_timestamp := doc_timestamp d;
     ev_id := doc_id d;
     eventCategory := category;
     icon := icon |}.

(** One of the four guarded blocks: when [type] is 'all' or the block's
    own name, fetch and push the tagged documents. *)
Definition fetch (type own category icon : string)
    (query : outcome (list document)) (events : list event)
    : outcome (list event) :=
  if (type =? "all")%string || (type =? own)%string then
    docs ← query;
    Resolved (events ++ map (tag category icon) docs)%list
  else Resolved events.

(** [events.sort((a, b) => new Date(b.timestamp) - new Date(a.timestamp))]:
    the sort is stable, so its result is the one of a stable insertion
    sort, most recent first. *)
Fixpoint insert (e : event) (sorted : list event) : list event :=
  match sorted with
  | [] => [e]
  | x :: rest =>
      if ev_timestamp x <=? ev_timestamp e then e :: x :: rest
      else x :: insert e rest
  end.

Definition sort_recent (events : list event) : list event :=
  fold_right insert [] events.

(** [l.slice(0, limit)]: a negative [limit] counts from the end. *)
Definition slice_to {A : Type} (limit : Z) (l : list A) : list A :=
  let len := Z.of_nat (length l) in
  let stop := if limit <? 0 then Z.max (len + limit) 0 else Z.min limit len in
  firstn (Z.to_nat stop) l.

(** [getRecentEvents(limit = 50, type = 'all')]. *)
Definition getRecentEvents (db : logs) (limit : option Z)
    (type : option string) : list event :=
  let limit := default 50 limit in
  let type := default "all" type in
  Promise.try_catch
    (events ← fetch type "security" "SECURITY" "🔐"
                    (find_security db limit) [];
     events ← fetch type "financial" "FINANCIAL" "💰"
                    (find_financial db limit) events;
     events ← fetch type "privacy" "PRIVACY" "🔒"
                    (find_privacy db limit) events;
     events ← fetch type "confidential" "CONFIDENTIAL" "🔐"
                    (find_confidential db limit) events;
     Resolved (slice_to limit (sort_recent events)))
    (fun _ => []).

(** Most recent first. *)
Definition newest_first (events : list event) : Prop :=
  Sorted.StronglySorted
    (fun a b => ev_timestamp b <= ev_timestamp a) events.

End Events.

(** *** [generateAuditAnalytics] *)

Module Analytics.

(** One group of an aggregation: its [_id] (rendered), its [count], and
    for the financial log its [totalAmount]. *)
Record group : Type := mkGroup {
  group_id    : string;
  count       : Z;
  totalAmount : float
}.

(** How the four [aggregate] calls settle, given the start of the window
    ([None] is an invalid date). *)
Record logs : Type := mkLogs {
  aggregate_security     : option Z -> outcome (list group);
  aggregate_financial    : option Z -> outcome (list group);
  aggregate_confidential : option Z -> outcome (list group);
  aggregate_privacy      : option Z -> outcome (list group)
}.



(** [groups.reduce((s, e) => s + e.count, 0)]. *)
Definition total_count (groups : list group) : Z :=
  fold_left (fun s e => s + count e) groups 0.






End Analytics.

(** *** [performHealthCheck] *)

Module Health.

(** What one health check observes of the process and of the store. *)
Record probe : Type := mkProbe {
  (** [(await import('mongoose')).default.connection.readyState] *)
  readyState          : outcome Z;
  (** [process.memoryUsage()], in bytes *)
  heapUsed            : Z;
  heapTotal           : Z;
  (** [process.cpuUsage()], in microseconds *)
  cpu_user            : Z;
  cpu_system          : Z;
  npm_package_version : option string;
  NODE_ENV            : option string;
  (** [SecurityAuditLog.create(data)] inside [logSecurityEvent] *)
  create_event        : outcome unit
}.

(** [health.checks.database]. *)
Inductive database : Type :=
| DbUp
| DbDown (readyState : string) (stateCode : Z)
| DbError (message : string).

(** The object returned ([timestamp] and [uptime] are passed through from
    the clock and are left out). *)
Record health : Type := mkHealth {
  status         : string;
  version        : string;
  environment    : string;
  check_database : database;
  memory_status  : string;
  memory_used    : string;
  memory_total   : string;
  cpu_status     : string;
  cpu_user_ms    : string;
  cpu_system_ms  : string
}.

(** [Math.round(a / b)] for integers [0 <= a] and [0 < b]. *)
Definition round_div (a b : Z) : Z := (2 * a + b) / (2 * b).

(** [stateMap[dbState] || 'unknown'] in the branch [dbState !== 1]. *)
Definition stateMap (dbState : Z) : string :=
  if dbState =? 0 then "disconnected"
  else if dbState =? 1 then "connected"
  else if dbState =? 2 then "connecting"
  else if dbState =? 3 then "disconnecting"
  else "unknown".

(** [process.env.X || fallback]. *)
Definition or_else (v : option string) (fallback : string) : string :=
  match v with
  | Some s => if (s =? "")%string then fallback else s
  | None => fallback
  end.

(** [performHealthCheck()]. *)
Definition performHealthCheck (p : probe) : outcome health :=
  let db :=
    match readyState p with
    | Resolved dbState =>
        if dbState =? 1 then DbUp else DbDown (stateMap dbState) dbState
    | Rejected m => DbError m
    end in
  let status := match db with DbUp => "UP" | _ => "DEGRADED" end in
  let used := round_div (heapUsed p) (1024 * 1024) in
  let total := round_div (heapTotal p) (1024 * 1024) in
  _ ← Resolved (Promise.try_catch (create_event p) (fun _ => tt));
  Resolved
    {| status := status;
       version := or_else (npm_package_version p) "1.0.0";
       environment := or_else (NODE_ENV p) "development";
       check_database := db;
       memory_status := if used <? 500 then "UP" else "WARNING";
       memory_used := (JsNumber.decimal used ++ "MB")%string;
       memory_total := (JsNumber.decimal total ++ "MB")%string;
       cpu_status := "UP";
       cpu_user_ms :=
         (JsNumber.decimal (round_div (cpu_user p) 1000) ++ "ms")%string;
       cpu_system_ms :=
         (JsNumber.decimal (round_div (cpu_system p) 1000) ++ "ms")%string |}.

End Health.

(** *** The in-memory audit tail of [runContinuousChecks] *)

Module AuditTail.
Import Compliance.

(** [eventData.metadata]. *)
Record metadata : Type := mkMetadata {
  meta_totalChecks  : Z;
  meta_passed       : Z;
  meta_failed       : Z;
  meta_passRate     : string;
  meta_failedChecks : list string
}.

(** One element of [this.auditLog]. *)
Record entry : Type := mkEntry {
  entry_timestamp : Z;
  entry_type      : string;
  entry_category  : string;
  entry_message   : string;
  entry_severity  : string;
  entry_status    : string;
  entry_details   : metadata
}.

(** The entry built from [eventData] for the results [checks]. *)
Definition entry_of (time : Z) (checks : list CheckResult) : entry :=
  let failed := List.filter (fun r => negb (passed r)) checks in
  let total := Z.of_nat (length checks) in
  let passed := total - Z.of_nat (length failed) in
  let result := if (length failed =? 0)%nat then "SUCCESS" else "FAILURE" in
  {| entry_timestamp := time;
     entry_type := "SECURITY";
     entry_category := "COMPLIANCE_CHECK";
     entry_message :=
       ("Compliance check: " ++ result ++ " (" ++ JsNumber.decimal passed
        ++ "/" ++ JsNumber.decimal total ++ " passed)")%string;
     entry_severity :=
       if (length failed =? 0)%nat then "LOW"
       else if (3 <? length failed)%nat then "HIGH" else "MEDIUM";
     entry_status := result;
     entry_details :=
       {| meta_totalChecks := total;
          meta_passed := passed;
          meta_failed := Z.of_nat (length failed);
          meta_passRate := JsNumber.percent 1 passed total;
          meta_failedChecks := map name failed |} |}.

(** [this.auditLog.push(e)], then
    [if (this.auditLog.length > 1000) this.auditLog = this.auditLog.slice(-1000)]. *)
Definition record_entry (e : entry) (auditLog : list entry) : list entry :=
  let auditLog := push auditLog e in
  if (1000 <? length auditLog)%nat
  then skipn (length auditLog - 1000) auditLog
  else auditLog.

Section WithNumberPrimitives.

Variable parseInt : string -> float.
Variable numberToString : float -> string.

(** What one call of [runContinuousChecks] leaves in [this.auditLog];
    [event_time] is the [new Date()] of [eventData]. *)
Definition auditLog_after (w : world) (event_time : Z)
    (auditLog : list entry) : list entry :=
  match Promise.all (registered parseInt numberToString w) with
  | Resolved checks => record_entry (entry_of event_time checks) auditLog
  | Rejected _ => auditLog
  end.

(** The history after a series of runs, oldest first. *)
Definition history_after (worlds : list world)
    (history : list (Z * Summary)) : list (Z * Summary) :=
  fold_left
    (fun h w =>
       match runContinuousChecks parseInt numberToString w h with
       | Resolved (_, h') => h'
       | Rejected _ => h
       end)
    worlds history.

End WithNumberPrimitives.

End AuditTail.

(** *** The route [GET /status] of ComplianceRoutes.js *)

Module Routes.
Import Compliance.

(** The JSON body of the 200 answer ([timestamp] left out). *)
Record body : Type := mkBody {
  totalChecks      : Z;
  totalPassed      : Z;
  totalFailed      : Z;
  totalRuns        : Z;
  complianceStatus : string;
  averagePassRate  : string
}.

Inductive answer : Type :=
| Status200 (b : body)
| Status500 (message error : string).

Section WithNumberPrimitives.

Variable parseInt : string -> float.
Variable numberToString : float -> string.

(** The handler of [GET /status]: the answer and the monitor's history
    afterwards. *)
Definition status (w : world) (p : Health.probe)
    (history : list (Z * Summary)) : answer * list (Z * Summary) :=
  match runContinuousChecks parseInt numberToString w history with
  | Rejected m => (Status500 "Error fetching compliance status" m, history)
  | Resolved (complianceCheck, history') =>
      match Health.performHealthCheck p with
      | Rejected m =>
          (Status500 "Error fetching compliance status" m, history')
      | Resolved _ =>
          let hasData := Compliance.totalChecks complianceCheck >? 0 in
          (Status200
             {| totalChecks :=
                  if hasData then Compliance.totalChecks complianceCheck
                  else 12;
                totalPassed :=
                  if hasData then sum_passed complianceCheck else 12;
                totalFailed :=
                  if hasData then sum_failed complianceCheck else 0;
                totalRuns := 24;
                complianceStatus :=
                  if hasData
                  then (if sum_failed complianceCheck =? 0 then "COMPLIANT"
                        else "NON-COMPLIANT")
                  else "COMPLIANT";
                averagePassRate :=
                  if hasData then passRate complianceCheck else "100%" |},
           history')
      end
  end.

End WithNumberPrimitives.

End Routes.

(** ** Error handling middleware *)

Module ErrorHandler.

(** The fields of [err] that the handler reads; [status] and [statusCode]
    are numbers or absent. *)
Record error : Type := mkError {
  err_name       : string;
  err_message    : string;
  err_stack      : string;
  err_status     : option Z;
  err_statusCode : option Z
}.

(** [response.error], present in development only. *)
Record detail : Type := mkDetail {
  name    : string;
  message : string;
  stack   : string
}.

(** The status given to [res.status] and the body given to [res.json]. *)
Record response : Type := mkResponse {
  statusCode   : Z;
  success      : bool;
  body_message : string;
  timestamp    : Z;
  path         : string;
  error_detail : option detail
}.

(** [errorMessages[statusCode]]. *)
Definition errorMessages (code : Z) : option string :=
  if code =? 400 then Some "Bad Request - Invalid input provided"
  else if code =? 401 then Some "Unauthorized - Authentication required"
  else if code =? 403 then Some "Forbidden - Access denied"
  else if code =? 404 then Some "Not Found - Resource does not exist"
  else if code =? 429 then Some "Too Many Requests - Please try again later"
  else if code =? 500 then Some "Internal Server Error - Something went wrong"
  else None.

(** [a || b] on numbers that may be absent: absent and 0 are falsy. *)
Definition or_number (a : option Z) (b : Z) : Z :=
  match a with
  | Some n => if n =? 0 then b else n
  | None => b
  end.

(** [secureErrorHandler(err, req, res, next)] with
    [process.env.NODE_ENV = node_env], [req.path = req_path] and the clock
    at [now]. *)
Definition secureErrorHandler (node_env : option string) (now : Z)
    (err : error) (req_path : string) : response :=
  let isDevelopment :=
    match node_env with
    | Some e => (e =? "development")%string
    | None => false
    end in
  let code := or_number (err_status err) (or_number (err_statusCode err) 500) in
  {| statusCode := code;
     success := false;
     body_message :=
       if isDevelopment then err_message err
       else default "An error occurred" (errorMessages code);
     timestamp := now;
     path := req_path;
     error_detail :=
       if isDevelopment
       then Some {| name := err_name err;
                    message := err_message err;
                    stack := err_stack err |}
       else None |}.

(** [sanitizeInput(input)] of the same file on a string:
    [input.replace(/[\$\.]/g, '')]. *)
Fixpoint sanitizeInput (input : string) : string :=
  match input with
  | EmptyString => EmptyString
  | String c rest =>
      if (c =? "$")%char || (c =? ".")%char then sanitizeInput rest
      else String c (sanitizeInput rest)
  end.

End ErrorHandler.

(** ** Input validation ([validatePassword]) *)

Module Validation.


Definition between (lo hi : nat) (c : ascii) : bool :=
  let n := nat_of_ascii c in ((lo <=? n) && (n <=? hi))%nat.

Definition lower (c : ascii) : bool := between 97 122 c.





End Validation.

(** * Properties *)

(** ** Account lockout *)

Module LockoutFacts.
Import Lockout Scenarios.

Section WithLowerCase.

Variable toLowerCase : string -> string.

Local Abbreviation recordFailedAttempt := (Lockout.recordFailedAttempt toLowerCase).
Local Abbreviation recordSuccessfulLogin :=
  (Lockout.recordSuccessfulLogin toLowerCase).
Local Abbreviation isLocked := (Lockout.isLocked toLowerCase).
Local Abbreviation cleanup := Lockout.cleanup.
Local Abbreviation unlockAccount := (Lockout.unlockAccount toLowerCase).
Local Abbreviation step := (Lockout.step toLowerCase).
Local Abbreviation after := (Lockout.after toLowerCase).

(** The three paths of [recordFailedAttempt], as seen at the key. *)
Lemma failed_on_absent now email ip (attempts : gmap string record) :
  attempts !! toLowerCase email = None ->
  recordFailedAttempt now email ip attempts !! toLowerCase email
  = Some (fresh now ip).
Proof.
  intros Hnone. unfold Lockout.recordFailedAttempt.
  rewrite Hnone. apply lookup_insert_eq.
Qed.

Lemma failed_after_quiet now email ip (attempts : gmap string record) r :
  attempts !! toLowerCase email = Some r ->
  resetTime < now - last r ->
  recordFailedAttempt now email ip attempts !! toLowerCase email
  = Some (fresh now ip).
Proof.
  intros Hr Hquiet. unfold Lockout.recordFailedAttempt. rewrite Hr.
  destruct (Z.gtb_spec (now - last r) resetTime) as [_ | Hle]; [| lia].
  apply lookup_insert_eq.
Qed.

Lemma failed_in_window now email ip (attempts : gmap string record) r :
  attempts !! toLowerCase email = Some r ->
  now - last r <= resetTime ->
  recordFailedAttempt now email ip attempts !! toLowerCase email
  = Some (bumped now ip r).
Proof.
  intros Hr Hin. unfold Lockout.recordFailedAttempt. rewrite Hr.
  destruct (Z.gtb_spec (now - last r) resetTime) as [Hgt | _]; [lia |].
  apply lookup_insert_eq.
Qed.

(** Records of other identities are not touched. *)
Lemma failed_elsewhere now email ip (attempts : gmap string record) k :
  k <> toLowerCase email ->
  recordFailedAttempt now email ip attempts !! k = attempts !! k.
Proof.
  intros Hk. unfold Lockout.recordFailedAttempt.
  destruct (attempts !! toLowerCase email) as [r |];
    [destruct (now - last r >? resetTime) |];
    apply lookup_insert_ne; congruence.
Qed.

Lemma lock_ok_fresh now ip : lock_ok (fresh now ip).
Proof. intros l Hl. discriminate Hl. Qed.

Lemma lock_ok_bumped now ip r : lock_ok r -> lock_ok (bumped now ip r).
Proof.
  intros Hok l. unfold bumped; simpl.
  destruct (Z.geb_spec (count r + 1) max) as [Hge | Hlt].
  - intros [= <-]. split; [reflexivity | exact Hge].
  - intros Hl. destruct (Hok l Hl) as [_ Hmax]. lia.
Qed.

(** Every call keeps [lock_ok] on all records. *)
Lemma step_keeps_lock_ok (attempts : gmap string record) c :
  map_Forall (fun _ r => lock_ok r) attempts ->
  map_Forall (fun _ r => lock_ok r) (step attempts c).
Proof.
  intros Hall. destruct c as [now email ip | email | now email | now | email];
    simpl.
  - unfold Lockout.recordFailedAttempt.
    destruct (attempts !! toLowerCase email) as [r |] eqn:Hr.
    + destruct (now - last r >? resetTime).
      * apply map_Forall_insert_2; [apply (lock_ok_fresh now ip) | exact Hall].
      * apply map_Forall_insert_2; [| exact Hall].
        apply (lock_ok_bumped now ip r), (Hall _ _ Hr).
    + apply map_Forall_insert_2; [apply (lock_ok_fresh now ip) | exact Hall].
  - apply map_Forall_delete, Hall.
  - unfold Lockout.isLocked.
    destruct (attempts !! toLowerCase email) as [r |]; [| exact Hall].
    destruct (negb (truthy (locked r))); [exact Hall |].
    destruct (locked r) as [l |]; [| exact Hall].
    destruct (now <? l); [exact Hall | apply map_Forall_delete, Hall].
  - unfold Lockout.cleanup. intros k r Hk.
    apply map_lookup_filter_Some in Hk as [Hk _]. exact (Hall _ _ Hk).
  - unfold Lockout.unlockAccount.
    destruct (attempts !! toLowerCase email);
      [apply map_Forall_delete, Hall | exact Hall].
Qed.

Lemma fold_keeps_lock_ok calls (attempts : gmap string record) :
  map_Forall (fun _ r => lock_ok r) attempts ->
  map_Forall (fun _ r => lock_ok r) (fold_left step calls attempts).
Proof.
  revert attempts. induction calls as [| c calls IH]; intros attempts Hall.
  - exact Hall.
  - simpl. apply IH, step_keeps_lock_ok, Hall.
Qed.

(** In every state the tracker can reach, a lock is present only on a
    record whose count has reached [max], and it ends [lockTime] after the
    last recorded failure. *)
Lemma reachable_lock_ok calls k r :
  after calls !! k = Some r -> lock_ok r.
Proof.
  intros Hk.
  refine (fold_keeps_lock_ok calls ∅ _ k r Hk).
  apply map_Forall_empty.
Qed.

(** [Math.ceil] of a positive number of minutes is positive. *)
Lemma ceil_div_pos a : 0 < a -> 0 < ceil_div a 60000.
Proof.
  intros Ha. unfold ceil_div.
  assert ((- a) / 60000 < 0) by (apply Z.div_lt_upper_bound; lia).
  lia.
Qed.

Lemma isLocked_absent now email (attempts : gmap string record) :
  attempts !! toLowerCase email = None ->
  isLocked now email attempts = (NotLocked, attempts).
Proof. intros Hnone. unfold Lockout.isLocked. rewrite Hnone. reflexivity. Qed.

Lemma isLocked_no_lock now email (attempts : gmap string record) r :
  attempts !! toLowerCase email = Some r ->
  locked r = None ->
  isLocked now email attempts = (NotLocked, attempts).
Proof.
  intros Hr Hl. unfold Lockout.isLocked. rewrite Hr, Hl. reflexivity.
Qed.

Lemma isLocked_active now email (attempts : gmap string record) r l :
  attempts !! toLowerCase email = Some r ->
  locked r = Some l ->
  l <> 0 ->
  now < l ->
  isLocked now email attempts
  = (Locked (ceil_div (l - now) 60000) l, attempts).
Proof.
  intros Hr Hl Hnz Hlt. unfold Lockout.isLocked. rewrite Hr, Hl. simpl.
  destruct (Z.eqb_spec l 0) as [-> | _]; [congruence |]. simpl.
  destruct (Z.ltb_spec now l); [reflexivity | lia].
Qed.

Lemma isLocked_expired now email (attempts : gmap string record) r l :
  attempts !! toLowerCase email = Some r ->
  locked r = Some l ->
  l <> 0 ->
  l <= now ->
  isLocked now email attempts
  = (NotLocked, delete (toLowerCase email) attempts).
Proof.
  intros Hr Hl Hnz Hle. unfold Lockout.isLocked. rewrite Hr, Hl. simpl.
  destruct (Z.eqb_spec l 0) as [-> | _]; [congruence |]. simpl.
  destruct (Z.ltb_spec now l); [lia | reflexivity].
Qed.

(** C1 (amended).  In every reachable state, a record carries a lock only
    if its count has reached [max], and the lock ends [lockTime] after the
    last recorded failure.  A further failure recorded for a locked identity
    no later than [resetTime] after that last failure finds the lock still
    running, increments the count, and sets the lock anew to
    [now + lockTime]: the lock is never shortened, and it is moved forward
    by exactly the time that has passed since the previous failure. *)
Theorem failure_while_locked_rearms calls email ip now r l :
  after calls !! toLowerCase email = Some r ->
  locked r = Some l ->
  last r <= now ->
  now - last r <= resetTime ->
  max <= count r /\ l = last r + lockTime /\ now < l /\
  exists r',
    recordFailedAttempt now email ip (after calls) !! toLowerCase email
    = Some r' /\
    count r' = count r + 1 /\
    locked r' = Some (now + lockTime) /\
    l <= now + lockTime /\
    (now + lockTime = l <-> now = last r).
Proof.
  intros Hr Hl Hmono Hin.
  destruct (reachable_lock_ok calls _ r Hr l Hl) as [-> Hmax].
  unfold resetTime, lockTime in *.
  repeat split; [exact Hmax | lia |].
  exists (bumped now ip r).
  split; [apply failed_in_window; [exact Hr | unfold resetTime; lia] |].
  unfold bumped; simpl.
  destruct (Z.geb_spec (count r + 1) max) as [_ | Hlt]; [| lia].
  unfold lockTime. repeat split; lia.
Qed.

(** C5.  Five failures in a row for an identity without a record, each no
    later than [resetTime] after the one before, lock the identity (four do
    not): until [lockTime] has passed since the fifth, [isLocked] answers
    locked with a positive number of remaining minutes and leaves the record
    in place; from then on it answers not locked and the record is gone. *)
Theorem five_failures_lock_then_expire
    (attempts : gmap string record) email ip1 ip2 ip3 ip4 ip5 t1 t2 t3 t4 t5 :
  attempts !! toLowerCase email = None ->
  t2 - t1 <= resetTime ->
  t3 - t2 <= resetTime ->
  t4 - t3 <= resetTime ->
  t5 - t4 <= resetTime ->
  0 <= t5 ->
  let s4 :=
    recordFailedAttempt t4 email ip4
      (recordFailedAttempt t3 email ip3
         (recordFailedAttempt t2 email ip2
            (recordFailedAttempt t1 email ip1 attempts))) in
  let s5 := recordFailedAttempt t5 email ip5 s4 in
  (forall now, isLocked now email s4 = (NotLocked, s4)) /\
  s5 !! toLowerCase email
  = Some {| count := 5; last := t5; ips := [ip1; ip2; ip3; ip4; ip5];
            locked := Some (t5 + lockTime) |} /\
  (forall now, now < t5 + lockTime ->
     exists remainingMinutes,
       isLocked now email s5
       = (Locked remainingMinutes (t5 + lockTime), s5) /\
       0 < remainingMinutes) /\
  (forall now, t5 + lockTime <= now ->
     fst (isLocked now email s5) = NotLocked /\
     snd (isLocked now email s5) !! toLowerCase email = None).
Proof.
  intros Hnone H12 H23 H34 H45 Hpos s4 s5.
  pose proof (failed_on_absent t1 email ip1 attempts Hnone) as H1.
  pose proof (failed_in_window t2 email ip2 _ _ H1 H12) as H2.
  pose proof (failed_in_window t3 email ip3 _ _ H2 H23) as H3.
  pose proof (failed_in_window t4 email ip4 _ _ H3 H34) as H4.
  pose proof (failed_in_window t5 email ip5 _ _ H4 H45) as H5.
  fold s4 in H4, H5. fold s5 in H5.
  change (bumped t4 ip4 (bumped t3 ip3 (bumped t2 ip2 (fresh t1 ip1))))
    with {| count := 4; last := t4; ips := [ip1; ip2; ip3; ip4];
            locked := None |} in H4, H5.
  change (bumped t5 ip5 _)
    with {| count := 5; last := t5; ips := [ip1; ip2; ip3; ip4; ip5];
            locked := Some (t5 + lockTime) |} in H5.
  assert (Hnz : t5 + lockTime <> 0) by (unfold lockTime; lia).
  split; [| split; [exact H5 | split]].
  - intros now. exact (isLocked_no_lock now email s4 _ H4 eq_refl).
  - intros now Hnow. exists (ceil_div (t5 + lockTime - now) 60000). split.
    + exact (isLocked_active now email s5 _ _ H5 eq_refl Hnz Hnow).
    + apply ceil_div_pos. lia.
  - intros now Hnow.
    rewrite (isLocked_expired now email s5 _ _ H5 eq_refl Hnz Hnow). simpl.
    split; [reflexivity | apply lookup_delete_eq].
Qed.

(** C6.  [recordSuccessfulLogin] removes the identity's record whatever the
    map holds: afterwards there is no record under the key, [isLocked]
    answers not locked at any time and changes nothing, and the next failure
    starts again from a count of one without a lock. *)
Theorem success_clears_record (attempts : gmap string record) email :
  let s := recordSuccessfulLogin email attempts in
  s !! toLowerCase email = None /\
  (forall now, isLocked now email s = (NotLocked, s)) /\
  (forall now ip,
     recordFailedAttempt now email ip s !! toLowerCase email
     = Some {| count := 1; last := now; ips := [ip]; locked := None |}).
Proof.
  intros s.
  assert (Hnone : s !! toLowerCase email = None) by apply lookup_delete_eq.
  split; [exact Hnone | split].
  - intros now. apply isLocked_absent, Hnone.
  - intros now ip. apply failed_on_absent, Hnone.
Qed.

(** C10.  A failure recorded more than [resetTime] after the last one
    replaces the record by a fresh one with count one and no lock, also when
    the old record carried a lock that had not yet run out; [isLocked] then
    answers not locked. *)
Theorem failure_after_quiet_window_clears_lock
    (attempts : gmap string record) email ip now r l :
  attempts !! toLowerCase email = Some r ->
  locked r = Some l ->
  now < l ->
  resetTime < now - last r ->
  let s := recordFailedAttempt now email ip attempts in
  s !! toLowerCase email
  = Some {| count := 1; last := now; ips := [ip]; locked := None |} /\
  (forall now', isLocked now' email s = (NotLocked, s)).
Proof.
  intros Hr Hl Hactive Hquiet s.
  pose proof (failed_after_quiet now email ip attempts r Hr Hquiet) as Hs.
  split; [exact Hs |].
  intros now'. exact (isLocked_no_lock now' email s _ Hs eq_refl).
Qed.

End WithLowerCase.

(** C1, as stated, fails: after the fifth failure at 4000 the lock ends at
    1804000; a sixth failure one minute later, while [isLocked] still answers
    locked, moves the end of the lock to 1864000 and raises the count to 6. *)
Lemma sixth_failure_moves_lock :
  let s5 := Lockout.after lower five in
  let s6 := Lockout.recordFailedAttempt lower 64000 ann "198.51.100.7" s5 in
  locked <$> s5 !! ann_key = Some (Some 1804000) /\
  fst (Lockout.isLocked lower 64000 ann s5) = Locked 29 1804000 /\
  locked <$> s6 !! ann_key = Some (Some 1864000) /\
  count <$> s6 !! ann_key = Some 6 /\
  locked <$> s6 !! ann_key <> locked <$> s5 !! ann_key.
Proof. vm_compute. repeat split; congruence. Qed.

Lemma failure_while_locked_rearms_witness :
  max <= count locked_record /\ 1804000 = last locked_record + lockTime /\
  64000 < 1804000 /\
  exists r',
    Lockout.recordFailedAttempt lower 64000 ann "198.51.100.7"
      (Lockout.after lower five) !! lower ann = Some r' /\
    count r' = count locked_record + 1 /\
    locked r' = Some (64000 + lockTime) /\
    1804000 <= 64000 + lockTime /\
    (64000 + lockTime = 1804000 <-> 64000 = last locked_record).
Proof.
  apply (failure_while_locked_rearms lower five ann "198.51.100.7" 64000
           locked_record 1804000).
  - vm_compute. reflexivity.
  - reflexivity.
  - vm_compute. discriminate.
  - vm_compute. discriminate.
Defined.

Lemma five_failures_lock_then_expire_witness :
  exists s5 : gmap string record,
    s5 !! lower ann = Some locked_record /\
    (exists m, Lockout.isLocked lower 64000 ann s5
               = (Locked m 1804000, s5) /\ 0 < m) /\
    fst (Lockout.isLocked lower 1804000 ann s5) = NotLocked /\
    snd (Lockout.isLocked lower 1804000 ann s5) !! lower ann = None.
Proof.
  destruct (five_failures_lock_then_expire lower ∅ ann
              "198.51.100.7" "198.51.100.7" "198.51.100.7" "198.51.100.7"
              "198.51.100.7" 0 1000 2000 3000 4000)
    as (_ & H5 & Hlocked & Hexpired).
  - reflexivity.
  - vm_compute. discriminate.
  - vm_compute. discriminate.
  - vm_compute. discriminate.
  - vm_compute. discriminate.
  - vm_compute. discriminate.
  - eexists. split; [exact H5 | split].
    + apply (Hlocked 64000). reflexivity.
    + apply (Hexpired 1804000). vm_compute. discriminate.
Defined.

Lemma failure_after_quiet_window_clears_lock_witness :
  let s := Lockout.recordFailedAttempt lower 904001 ann "198.51.100.7"
             (Lockout.after lower five) in
  s !! lower ann
  = Some {| count := 1; last := 904001; ips := ["198.51.100.7"];
            locked := None |} /\
  (forall now', Lockout.isLocked lower now' ann s = (NotLocked, s)).
Proof.
  apply (failure_after_quiet_window_clears_lock lower
           (Lockout.after lower five) ann "198.51.100.7" 904001
           locked_record 1804000).
  - vm_compute. reflexivity.
  - reflexivity.
  - reflexivity.
  - reflexivity.
Defined.

End LockoutFacts.

(** ** Fraud scorer *)

Module FraudFacts.
Import Fraud Scenarios.

(** The flags set and the score are read off the four tests. *)
Lemma score_with_cases recent t :
  let velocity := (VELOCITY <=? length recent)%nat in
  let high := (HIGH_VALUE <? amount t)%float in
  let duplicate :=
    (0 <? length (filter (fun r => (doc_amount r =? amount t)%float = true)
                         recent))%nat in
  let suspicious := isProxy (checkIPReputation (ip t)) in
  let a := score_with recent t in
  riskScore a
  = (if velocity then 30 else 0) + (if high then 20 else 0)
    + (if duplicate then 25 else 0) + (if suspicious then 40 else 0) /\
  flags a
  = ((if velocity then ["HIGH_VELOCITY"] else [])
     ++ (if high then ["HIGH_VALUE"] else [])
     ++ (if duplicate then ["DUPLICATE"] else [])
     ++ (if suspicious then ["SUSPICIOUS_IP"] else []))%list.
Proof.
  intros velocity high duplicate suspicious a.
  subst a. unfold score_with. fold velocity high duplicate.
  change (isProxy (checkIPReputation (ip t))) with suspicious.
  change (isTor (checkIPReputation (ip t))) with false.
  rewrite orb_false_r.
  destruct velocity, high, duplicate, suspicious; split; reflexivity.
Qed.

(** The decision rule: blocked exactly above 50, manual review exactly in
    the band from above 30 up to 50. *)
Lemma decision_rule recent t :
  let a := score_with recent t in
  (decision_of a = BLOCKED <-> 50 < riskScore a) /\
  (decision_of a = APPROVED <-> riskScore a <= 50) /\
  (approved a = true <-> riskScore a <= 50) /\
  (requiresManualReview a = true <-> 30 < riskScore a <= 50).
Proof.
  intros a. subst a. unfold score_with.
  destruct (VELOCITY <=? length recent)%nat;
    destruct (HIGH_VALUE <? amount t)%float;
    destruct (0 <? length _)%nat;
    destruct (isProxy (checkIPReputation (ip t)) || isTor _);
    simpl; repeat split; intros; try lia; try congruence; try reflexivity.
Qed.

(** What the body computes on the scenario's inputs: five recent
    transactions, one of them of the same amount, an amount of 1500 and an
    address outside the suspicious patterns. *)
Lemma score_with_scenario recent t r :
  length recent = 5%nat ->
  amount t = 1500%float ->
  In r recent ->
  doc_amount r = 1500%float ->
  isProxy (checkIPReputation (ip t)) = false ->
  score_with recent t
  = {| approved := false;
       riskScore := 75;
       flags := ["HIGH_VELOCITY"; "HIGH_VALUE"; "DUPLICATE"];
       requiresManualReview := false;
       decision_of := BLOCKED |}.
Proof.
  intros Hlen Hamount Hin Hdup Hip.
  assert (Hsome :
    (0 <? length (filter (fun d => (doc_amount d =? amount t)%float = true)
                         recent))%nat = true).
  { apply Nat.ltb_lt.
    assert (Hmem : r ∈ filter
                     (fun d => (doc_amount d =? amount t)%float = true)
                     recent).
    { apply list_elem_of_filter. split.
      - rewrite Hdup, Hamount. reflexivity.
      - apply list_elem_of_In, Hin. }
    destruct (filter _ recent); [inversion Hmem | simpl; lia]. }
  unfold score_with. rewrite Hlen, Hsome, Hamount, Hip. reflexivity.
Qed.

(** C4, at the scenario.  With [Transaction] bound to a model that holds
    five transactions of the last ten minutes, one of them of 1500, the body
    scores 30 + 20 + 25 = 75 and blocks.  The module as written has no
    binding for [Transaction]: the lookup fails inside
    [getRecentTransactions], the history is taken to be empty, and the same
    transaction scores 20 and is approved with the single flag HIGH_VALUE. *)
Theorem scenario_scored_without_history :
  analyzeTransaction_in (Bound ledger) 1000000 purchase
  = {| approved := false;
       riskScore := 75;
       flags := ["HIGH_VELOCITY"; "HIGH_VALUE"; "DUPLICATE"];
       requiresManualReview := false;
       decision_of := BLOCKED |} /\
  length (getRecentTransactions_in (Bound ledger) 1000000 "u-17" 600000)
  = 5%nat /\
  analyzeTransaction 1000000 purchase
  = {| approved := true;
       riskScore := 20;
       flags := ["HIGH_VALUE"];
       requiresManualReview := false;
       decision_of := APPROVED |}.
Proof. repeat split; vm_compute; reflexivity. Qed.

(** As written, the scorer never sees any history: its result is fixed by
    the amount and the address alone. *)
Lemma history_never_read now1 now2 t1 t2 :
  amount t1 = amount t2 ->
  ip t1 = ip t2 ->
  analyzeTransaction now1 t1 = analyzeTransaction now2 t2.
Proof.
  intros Ha Hi. unfold analyzeTransaction, analyzeTransaction_in.
  simpl. unfold score_with. rewrite Ha, Hi. reflexivity.
Qed.

(** C7.  Two invocations with the same amount, the same fetched history
    and the same address return the same score and the same decision,
    whatever else differs (identifiers, user, clock, scope). *)
Theorem assessment_depends_on_declared_inputs
    scope1 scope2 now1 now2 t1 t2 :
  amount t1 = amount t2 ->
  getRecentTransactions_in scope1 now1 (userId t1) 600000
  = getRecentTransactions_in scope2 now2 (userId t2) 600000 ->
  ip t1 = ip t2 ->
  riskScore (analyzeTransaction_in scope1 now1 t1)
  = riskScore (analyzeTransaction_in scope2 now2 t2) /\
  decision_of (analyzeTransaction_in scope1 now1 t1)
  = decision_of (analyzeTransaction_in scope2 now2 t2).
Proof.
  intros Ha Hrecent Hi. unfold analyzeTransaction_in.
  rewrite Hrecent. unfold score_with. rewrite Ha, Hi.
  split; reflexivity.
Qed.

Lemma assessment_depends_on_declared_inputs_witness :
  riskScore (analyzeTransaction_in (Bound ledger) 1000000 purchase)
  = riskScore (analyzeTransaction_in (Bound ledger) 1000500 purchase_again) /\
  decision_of (analyzeTransaction_in (Bound ledger) 1000000 purchase)
  = decision_of (analyzeTransaction_in (Bound ledger) 1000500 purchase_again).
Proof.
  apply (assessment_depends_on_declared_inputs
           (Bound ledger) (Bound ledger) 1000000 1000500
           purchase purchase_again).
  - reflexivity.
  - vm_compute. reflexivity.
  - reflexivity.
Defined.

End FraudFacts.

(** ** Audit retention *)

Module AuditFacts.
Import Audit.

(** C9.  Each category's schema declares exactly one time-to-live, on
    [timestamp]: 90 days (7,776,000 s) for SECURITY and CONFIDENTIAL, seven
    years of 365 days (220,752,000 s) for FINANCIAL and PRIVACY. *)
Theorem retention_per_category :
  (forall c,
     retention_seconds (schema_of c)
     = [match c with
        | SECURITY | CONFIDENTIAL => 90 * day
        | FINANCIAL | PRIVACY => 7 * year
        end] /\
     (forall i, In i (indexes (schema_of c)) -> keys i = [("timestamp", 1)])) /\
  90 * day = 7776000 /\
  7 * year = 220752000.
Proof.
  split; [| split; reflexivity].
  intros c. split.
  - destruct c; reflexivity.
  - intros i Hi.
    destruct c; simpl in Hi; destruct Hi as [<- | [<- | []]]; reflexivity.
Qed.

End AuditFacts.

(** ** Compliance monitor *)

Module ComplianceFacts.
Import Compliance Scenarios.

(** [Promise.all] does not catch: one rejecting member rejects the whole. *)
Lemma all_rejects {A : Type} (ps : list (outcome A)) m :
  In (Rejected m) ps -> exists m', Promise.all ps = Rejected m'.
Proof.
  induction ps as [| p ps IH]; intros Hin; [destruct Hin |].
  destruct Hin as [-> | Hin].
  - exists m. reflexivity.
  - destruct (IH Hin) as [m' Hm']. simpl. rewrite Hm'.
    destruct p as [a | m0]; [exists m' | exists m0]; reflexivity.
Qed.

(** With seven checks the formatted rate is the exact percentage rounded to
    one decimal: none of the eight possible quotients is near a tie. *)
Lemma percent_of_seven (k : nat) :
  (k <= 7)%nat ->
  JsNumber.percent 1 (7 - Z.of_nat k) 7
  = (JsNumber.rounded_quotient 1 (100 * (7 - Z.of_nat k)) 7 ++ "%")%string.
Proof.
  intros Hk.
  do 8 (destruct k as [| k]; [vm_compute; reflexivity |]).
  lia.
Qed.

Lemma summarize_seven time checks :
  length checks = 7%nat ->
  let s := summarize time checks in
  totalChecks s = 7 /\
  details s = checks /\
  sum_failed s
  = Z.of_nat (length (List.filter (fun r => negb (passed r)) checks)) /\
  0 <= sum_failed s <= 7 /\
  sum_passed s + sum_failed s = totalChecks s /\
  passRate s
  = (JsNumber.rounded_quotient 1 (100 * sum_passed s) (totalChecks s)
     ++ "%")%string.
Proof.
  intros Hlen s. subst s. unfold summarize. simpl.
  pose proof (List.filter_length_le (fun r => negb (passed r)) checks) as Hle.
  rewrite Hlen in *.
  set (k := length (List.filter (fun r => negb (passed r)) checks)) in *.
  change (Z.of_nat 7) with 7.
  repeat split; try lia.
  apply percent_of_seven. exact Hle.
Qed.

Section WithNumberPrimitives.

Variable parseInt : string -> float.
Variable numberToString : float -> string.

Local Abbreviation registered :=
  (Compliance.registered parseInt numberToString).
Local Abbreviation runContinuousChecks :=
  (Compliance.runContinuousChecks parseInt numberToString).

(** No registered check rejects: the seven promises resolve, in order. *)
Lemma registered_resolve w :
  exists checks,
    Promise.all (registered w) = Resolved checks /\
    length checks = 7%nat /\
    registered w = map Resolved checks.
Proof.
  unfold Compliance.registered, Compliance.checkAuth,
    Compliance.checkEncryption, Compliance.checkDatabase,
    Compliance.checkLogs, Compliance.checkRateLimit, Compliance.checkCORS,
    Compliance.checkTokenExpiry.
  eexists. repeat split; reflexivity.
Qed.

(** The run resolves with the summary of the seven results and stores it. *)
Lemma run_resolves w history :
  exists checks,
    registered w = map Resolved checks /\
    length checks = 7%nat /\
    runContinuousChecks w history
    = Resolved (summarize (summary_time w) checks,
                map_set (store_time w) (summarize (summary_time w) checks)
                        history).
Proof.
  destruct (registered_resolve w) as (checks & Hall & Hlen & Heq).
  exists checks. split; [exact Heq | split; [exact Hlen |]].
  unfold Compliance.runContinuousChecks. rewrite Hall.
  unfold mbind, outcome_bind, alert, logged. simpl.
  destruct (0 <? length _)%nat; reflexivity.
Qed.

(** C2 (amended).  Every run resolves with a summary over the seven
    registered checks in which [passed + failed = totalChecks = 7], and whose
    [passRate] is the percentage [100 * passed / total] rounded to one
    decimal and followed by a percent sign. *)
Theorem run_summary_counts w history :
  exists s,
    runContinuousChecks w history
    = Resolved (s, map_set (store_time w) s history) /\
    length (details s) = 7%nat /\
    totalChecks s = 7 /\
    sum_failed s
    = Z.of_nat (length (List.filter (fun r => negb (passed r)) (details s))) /\
    sum_passed s + sum_failed s = totalChecks s /\
    passRate s
    = (JsNumber.rounded_quotient 1 (100 * sum_passed s) (totalChecks s)
       ++ "%")%string.
Proof.
  destruct (run_resolves w history) as (checks & _ & Hlen & Hrun).
  destruct (summarize_seven (summary_time w) checks Hlen)
    as (Htotal & Hdetails & Hfailed & _ & Hsum & Hrate).
  exists (summarize (summary_time w) checks).
  rewrite Hdetails.
  split; [exact Hrun |]. split; [exact Hlen |]. split; [exact Htotal |].
  split; [exact Hfailed |]. split; [exact Hsum | exact Hrate].
Qed.

(** C3 (amended).  No registered check rejects.  An error thrown by a
    storage call inside [checkDatabase] or [checkLogs] is caught by that
    check and reported as a failed control whose last issue is the check's
    own prefix followed by the error message ([checkDatabase] may list the
    connection state before it).  The run therefore always resolves with a
    summary that lists all seven results. *)
Theorem thrown_check_is_reported w history :
  (forall c, In c (registered w) -> exists r, c = Resolved r) /\
  (forall m,
     readyState w = Rejected m \/
     ((exists dbState, readyState w = Resolved dbState) /\
      probe_count w = Rejected m) ->
     exists r,
       checkDatabase w = Resolved r /\ passed r = false /\
       List.last (issues r) ""
       = ("Database connectivity error: " ++ m)%string) /\
  (forall m,
     recent_count w = Rejected m \/
     (recent_count w = Resolved 0 /\ total_count w = Rejected m) ->
     exists r,
       checkLogs w = Resolved r /\ passed r = false /\
       issues r = [("Error checking logs: " ++ m)%string]) /\
  (exists s,
     runContinuousChecks w history
     = Resolved (s, map_set (store_time w) s history) /\
     map Resolved (details s) = registered w /\
     length (details s) = 7%nat).
Proof.
  split; [| split; [| split]].
  - intros c Hc.
    destruct (registered_resolve w) as (checks & _ & _ & Heq).
    rewrite Heq in Hc. apply in_map_iff in Hc as (r & <- & _).
    exists r. reflexivity.
  - intros m Hthrown. unfold Compliance.checkDatabase.
    eexists. split; [reflexivity |].
    destruct Hthrown as [-> | [[dbState ->] ->]].
    + split; reflexivity.
    + destruct (negb (dbState =? 1)); split; reflexivity.
  - intros m Hthrown. unfold Compliance.checkLogs.
    eexists. split; [reflexivity |].
    destruct Hthrown as [-> | [-> ->]]; split; reflexivity.
  - destruct (run_resolves w history) as (checks & Heq & Hlen & Hrun).
    exists (summarize (summary_time w) checks).
    split; [exact Hrun |]. simpl.
    split; [symmetry; exact Heq | exact Hlen].
Qed.

End WithNumberPrimitives.

(** C2, as stated, fails on the rate: with one control of seven failing the
    summary carries "85.7%", a percentage with one decimal, where the
    quotient 6/7 written to two decimals is "0.86" (and the percentage to
    two decimals would be "85.71"). *)
Lemma pass_rate_has_one_decimal :
  match runContinuousChecks parse_decimal show_integer unset_secret [] with
  | Resolved (s, _) =>
      totalChecks s = 7 /\ sum_passed s = 6 /\ sum_failed s = 1 /\
      passRate s = "85.7%" /\
      JsNumber.rounded_quotient 2 (sum_passed s) (totalChecks s) = "0.86" /\
      passRate s
      <> JsNumber.rounded_quotient 2 (sum_passed s) (totalChecks s) /\
      passRate s
      <> JsNumber.rounded_quotient 2 (100 * sum_passed s) (totalChecks s) /\
      passRate s
      <> (JsNumber.rounded_quotient 2 (100 * sum_passed s) (totalChecks s)
          ++ "%")%string
  | Rejected _ => False
  end.
Proof. vm_compute. repeat split; congruence. Qed.

(** C3, as stated, fails on the issues list: with the database down,
    [checkDatabase] reports two issues, the second being the message behind
    a prefix, and [checkLogs] reports the message behind its own prefix;
    neither list is the bare message. *)
Lemma caught_error_is_wrapped :
  probe_count database_down = Rejected timed_out /\
  recent_count database_down = Rejected timed_out /\
  match checkDatabase database_down with
  | Resolved r =>
      passed r = false /\
      issues r
      = ["Database not connected: disconnected";
         ("Database connectivity error: " ++ timed_out)%string] /\
      length (issues r) = 2%nat /\
      issues r <> [timed_out]
  | Rejected _ => False
  end /\
  match checkLogs database_down with
  | Resolved r =>
      passed r = false /\
      issues r = [("Error checking logs: " ++ timed_out)%string] /\
      issues r <> [timed_out]
  | Rejected _ => False
  end.
Proof. vm_compute. repeat split; congruence. Qed.

(** With the database down the run still resolves: five of seven pass. *)
Lemma run_with_database_down :
  match runContinuousChecks parse_decimal show_integer database_down [] with
  | Resolved (s, stored) =>
      totalChecks s = 7 /\ sum_passed s = 5 /\ sum_failed s = 2 /\
      passRate s = "71.4%" /\ stored = [(1002, s)]
  | Rejected _ => False
  end.
Proof. vm_compute. repeat split; reflexivity. Qed.

(** *** Reports *)

(** The reduction that [generateReport] uses is the sum of the field. *)
Lemma sum_of_spec field rs :
  sum_of field rs = fold_right Z.add 0 (map field rs).
Proof.
  unfold sum_of.
  assert (Hgen : forall acc,
            fold_left (fun s r => s + field r) rs acc
            = acc + fold_right Z.add 0 (map field rs)).
  { induction rs as [| r rs IH]; intros acc; simpl.
    - lia.
    - rewrite IH. lia. }
  rewrite Hgen. lia.
Qed.

(** The runs of a report are those stored at or after the start of the
    window. *)
Lemma in_window_spec start history s :
  In s (in_window start history) <->
  exists t from, start = Some from /\ In (t, s) history /\ from <= t.
Proof.
  unfold in_window. rewrite in_map_iff. split.
  - intros ([t s'] & <- & Hin). apply List.filter_In in Hin as [Hin Hkeep].
    simpl in Hkeep. destruct start as [from |]; [| discriminate].
    exists t, from. repeat split; [exact Hin | apply Z.leb_le, Hkeep].
  - intros (t & from & -> & Hin & Hle). exists (t, s).
    split; [reflexivity |]. apply List.filter_In.
    split; [exact Hin | apply Z.leb_le, Hle].
Qed.

(** A period that is none of the four own keys and no inherited member
    defaults to 24 hours. *)
Lemma start_of_default now p :
  ~ In p ["1h"; "24h"; "7d"; "30d"] ->
  ~ In p inherited_names ->
  start_of now p = Some (now - 86400000).
Proof.
  intros Hown Hinh. unfold start_of, ms.
  destruct (String.eqb_spec p "1h") as [-> | _]; [elim Hown; simpl; tauto |].
  destruct (String.eqb_spec p "24h") as [-> | _]; [elim Hown; simpl; tauto |].
  destruct (String.eqb_spec p "7d") as [-> | _]; [elim Hown; simpl; tauto |].
  destruct (String.eqb_spec p "30d") as [-> | _]; [elim Hown; simpl; tauto |].
  destruct (existsb (String.eqb p) inherited_names) eqn:Hex; [| reflexivity].
  apply existsb_exists in Hex as (q & Hq & Heq).
  apply String.eqb_eq in Heq. subst q. contradiction.
Qed.

(** A period that names an inherited member selects no run at all, however
    recent: the window start is not a number. *)
Lemma inherited_period_selects_nothing now history :
  generateReport now (Some "constructor") history
  = NoChecksRun "constructor" now.
Proof.
  unfold generateReport, in_window. simpl.
  replace (List.filter _ history) with (@nil (Z * Summary)); [reflexivity |].
  induction history as [| e history IH]; [reflexivity | exact IH].
Qed.

(** C8, as stated, fails when no run lies in the window: the failures in
    the window add up to zero, yet what is returned is the note that no
    checks were run, without totals, rate or status. *)
Lemma empty_window_has_no_status :
  sum_of sum_failed (in_window (start_of 5000 "24h") []) = 0 /\
  generateReport 5000 None [] = NoChecksRun "24h" 5000 /\
  ~ reports_compliant (generateReport 5000 None []).
Proof.
  split; [reflexivity | split; [reflexivity |]].
  intros (r & Hr & _). discriminate Hr.
Qed.

(** C8 (amended).  [generateReport] keeps the runs stored at or after
    [now - window], where the window is 1 hour, 24 hours, 7 days or 30 days
    for the periods 1h, 24h, 7d and 30d, and 24 hours when no period is
    given or the period is any other string that is not the name of a member
    inherited from [Object.prototype].  When no run is kept it returns the
    note that no checks were run.  Otherwise it returns a report over
    the kept runs with the sums of their [totalChecks], [passed] and
    [failed], the rate [100 * passed / total] formatted with two decimals,
    and the status COMPLIANT exactly when the failures add up to zero. *)
Theorem report_over_window now period history :
  let p := default "24h" period in
  let runs := in_window (start_of now p) history in
  (forall s,
     In s runs <->
     exists t from, start_of now p = Some from /\ In (t, s) history
                    /\ from <= t) /\
  (start_of now "1h" = Some (now - 60 * 60 * 1000) /\
   start_of now "24h" = Some (now - 24 * 60 * 60 * 1000) /\
   start_of now "7d" = Some (now - 7 * 24 * 60 * 60 * 1000) /\
   start_of now "30d" = Some (now - 30 * 24 * 60 * 60 * 1000) /\
   (~ In p ["1h"; "24h"; "7d"; "30d"] -> ~ In p inherited_names ->
    start_of now p = Some (now - 24 * 60 * 60 * 1000))) /\
  (runs = [] -> generateReport now period history = NoChecksRun p now) /\
  (runs <> [] ->
   exists r,
     generateReport now period history = Report r /\
     results r = runs /\
     totalRuns r = Z.of_nat (length runs) /\
     totalChecks_sum r = fold_right Z.add 0 (map totalChecks runs) /\
     totalPassed r = fold_right Z.add 0 (map sum_passed runs) /\
     totalFailed r = fold_right Z.add 0 (map sum_failed runs) /\
     averagePassRate r
     = JsNumber.percent 2 (totalPassed r) (totalChecks_sum r) /\
     (complianceStatus_of r = COMPLIANT <-> totalFailed r = 0)).
Proof.
  intros p runs.
  split; [intros s; apply in_window_spec |].
  split.
  { repeat split; try reflexivity. apply start_of_default. }
  unfold generateReport. fold p. fold runs.
  split.
  - intros ->. reflexivity.
  - intros Hruns.
    destruct runs as [| r0 runs'] eqn:Hr; [congruence |].
    change (length (r0 :: runs') =? 0)%nat with false. cbv iota.
    eexists. split; [reflexivity |]. simpl results. simpl totalRuns.
    simpl totalChecks_sum. simpl totalPassed. simpl totalFailed.
    simpl averagePassRate. simpl complianceStatus_of.
    rewrite !sum_of_spec.
    repeat split; try reflexivity.
    + destruct (Z.eqb_spec
                  (fold_right Z.add 0 (map sum_failed (r0 :: runs'))) 0);
        [intros _; assumption | discriminate].
    + intros ->. reflexivity.
Qed.

End ComplianceFacts.

(** ** Further properties of the lockout middleware *)

Module LockoutAdminFacts.
Import Lockout LockoutAdmin Scenarios.

Section WithStringPrimitives.

Variable toLowerCase : string -> string.
Variable trim : string -> string.

Local Abbreviation recordFailedAttempt :=
  (Lockout.recordFailedAttempt toLowerCase).
Local Abbreviation recordSuccessfulLogin :=
  (Lockout.recordSuccessfulLogin toLowerCase).
Local Abbreviation isLocked := (Lockout.isLocked toLowerCase).
Local Abbreviation step := (Lockout.step toLowerCase).
Local Abbreviation after := (Lockout.after toLowerCase).
Local Abbreviation checkAccountLockout :=
  (LockoutAdmin.checkAccountLockout toLowerCase trim).
Local Abbreviation burst := (LockoutAdmin.burst toLowerCase).

(** [isLocked] reads the map at the key only. *)
Lemma isLocked_reads_key now email (m1 m2 : gmap string record) :
  m1 !! toLowerCase email = m2 !! toLowerCase email ->
  fst (isLocked now email m1) = fst (isLocked now email m2).
Proof.
  intros Heq. unfold Lockout.isLocked. rewrite Heq.
  destruct (m2 !! toLowerCase email) as [r |]; [| reflexivity].
  destruct (negb (truthy (locked r))); [reflexivity |].
  destruct (locked r) as [l |]; [| reflexivity].
  destruct (now <? l); reflexivity.
Qed.

(** [isLocked] depends on the address through its key only. *)
Lemma isLocked_same_key now e1 e2 (m : gmap string record) :
  toLowerCase e1 = toLowerCase e2 ->
  isLocked now e1 m = isLocked now e2 m.
Proof. intros Heq. unfold Lockout.isLocked. rewrite Heq. reflexivity. Qed.

(** X1.  Recording a failure or a success for one identity leaves the record
    of every other identity, and what [isLocked] answers for it, as they
    were. *)
Theorem other_identities_untouched
    now email ip (attempts : gmap string record) other now' :
  toLowerCase other <> toLowerCase email ->
  recordFailedAttempt now email ip attempts !! toLowerCase other
  = attempts !! toLowerCase other /\
  recordSuccessfulLogin email attempts !! toLowerCase other
  = attempts !! toLowerCase other /\
  fst (isLocked now' other (recordFailedAttempt now email ip attempts))
  = fst (isLocked now' other attempts) /\
  fst (isLocked now' other (recordSuccessfulLogin email attempts))
  = fst (isLocked now' other attempts).
Proof.
  intros Hother.
  assert (Hfail : recordFailedAttempt now email ip attempts
                    !! toLowerCase other = attempts !! toLowerCase other)
    by (apply LockoutFacts.failed_elsewhere; exact Hother).
  assert (Hok : recordSuccessfulLogin email attempts !! toLowerCase other
                = attempts !! toLowerCase other)
    by (apply lookup_delete_ne; congruence).
  repeat split; try assumption; apply isLocked_reads_key; assumption.
Qed.

Lemma shape_ok_fresh now ip : shape_ok (fresh now ip).
Proof.
  unfold shape_ok, fresh, max; simpl.
  repeat split; try lia; reflexivity.
Qed.

Lemma shape_ok_bumped now ip r : shape_ok r -> shape_ok (bumped now ip r).
Proof.
  intros (Hlen & Hpos & Hlock). unfold shape_ok, bumped, push; simpl.
  rewrite length_app; simpl.
  split; [lia | split; [lia |]].
  destruct (Z.geb_spec (count r + 1) max) as [Hge | Hlt].
  - split; [discriminate | lia].
  - split; [intros _; exact Hlt | intros _; apply Hlock; lia].
Qed.

Lemma step_keeps_shape (attempts : gmap string record) c :
  map_Forall (fun _ r => shape_ok r) attempts ->
  map_Forall (fun _ r => shape_ok r) (step attempts c).
Proof.
  intros Hall. destruct c as [now email ip | email | now email | now | email];
    simpl.
  - unfold Lockout.recordFailedAttempt.
    destruct (attempts !! toLowerCase email) as [r |] eqn:Hr.
    + destruct (now - last r >? resetTime).
      * apply map_Forall_insert_2; [apply (shape_ok_fresh now ip) | exact Hall].
      * apply map_Forall_insert_2; [| exact Hall].
        apply (shape_ok_bumped now ip r), (Hall _ _ Hr).
    + apply map_Forall_insert_2; [apply (shape_ok_fresh now ip) | exact Hall].
  - apply map_Forall_delete, Hall.
  - unfold Lockout.isLocked.
    destruct (attempts !! toLowerCase email) as [r |]; [| exact Hall].
    destruct (negb (truthy (locked r))); [exact Hall |].
    destruct (locked r) as [l |]; [| exact Hall].
    destruct (now <? l); [exact Hall | apply map_Forall_delete, Hall].
  - unfold Lockout.cleanup. intros k r Hk.
    apply map_lookup_filter_Some in Hk as [Hk _]. exact (Hall _ _ Hk).
  - unfold Lockout.unlockAccount.
    destruct (attempts !! toLowerCase email);
      [apply map_Forall_delete, Hall | exact Hall].
Qed.

(** X2.  In every state the tracker can reach, a record counts at least one
    failure, lists exactly one source address per counted failure (the list
    is never trimmed), and carries a lock exactly when its count has
    reached [max]. *)
Theorem reachable_record_shape calls k r :
  after calls !! k = Some r ->
  count r = Z.of_nat (length (ips r)) /\ 1 <= count r /\
  (locked r = None <-> count r < max).
Proof.
  intros Hk.
  assert (Hall : forall cs (m : gmap string record),
            map_Forall (fun _ r => shape_ok r) m ->
            map_Forall (fun _ r => shape_ok r) (fold_left step cs m)).
  { induction cs as [| c cs IH]; intros m Hm; [exact Hm |].
    simpl. apply IH, step_keeps_shape, Hm. }
  exact (Hall calls ∅ (map_Forall_empty _) k r Hk).
Qed.

(** What [cleanup] leaves under a key. *)
Lemma lookup_cleanup now (attempts : gmap string record) k :
  Lockout.cleanup now attempts !! k
  = match attempts !! k with
    | Some r => if stale now r then None else Some r
    | None => None
    end.
Proof.
  unfold Lockout.cleanup.
  destruct (attempts !! k) as [r |] eqn:Hk.
  - destruct (stale now r) eqn:Hs.
    + apply map_lookup_filter_None. right. intros r' Hr'.
      rewrite Hk in Hr'. injection Hr' as <-. simpl. congruence.
    + apply map_lookup_filter_Some. split; [exact Hk | exact Hs].
  - apply map_lookup_filter_None. left. exact Hk.
Qed.

(** X3.  The hourly sweep cannot be observed by later calls: at any time from
    the sweep on, [isLocked] answers the same and a further failure leaves
    the same record, whether or not the sweep ran.  The sweep only removes
    records; it never adds or changes one. *)
Theorem cleanup_is_unobservable
    now now' email ip (attempts : gmap string record) :
  now <= now' ->
  fst (isLocked now' email (Lockout.cleanup now attempts))
  = fst (isLocked now' email attempts) /\
  recordFailedAttempt now' email ip (Lockout.cleanup now attempts)
    !! toLowerCase email
  = recordFailedAttempt now' email ip attempts !! toLowerCase email /\
  (forall k r, Lockout.cleanup now attempts !! k = Some r ->
               attempts !! k = Some r).
Proof.
  intros Hlater.
  pose proof (lookup_cleanup now attempts (toLowerCase email)) as Hlook.
  split; [| split].
  - destruct (attempts !! toLowerCase email) as [r |] eqn:Hr;
      [| apply isLocked_reads_key; congruence].
    destruct (stale now r) eqn:Hs;
      [| apply isLocked_reads_key; congruence].
    unfold Lockout.isLocked. rewrite Hlook, Hr.
    unfold stale in Hs.
    apply andb_prop in Hs as [Hs Hquiet]. apply andb_prop in Hs as [Ht Hl].
    rewrite Ht. simpl.
    destruct (locked r) as [l |]; [| reflexivity].
    apply Z.ltb_lt in Hl.
    destruct (Z.ltb_spec now' l); [lia | reflexivity].
  - unfold Lockout.recordFailedAttempt. rewrite Hlook.
    destruct (attempts !! toLowerCase email) as [r |];
      [| rewrite !lookup_insert_eq; reflexivity].
    destruct (stale now r) eqn:Hs.
    + unfold stale in Hs. apply andb_prop in Hs as [_ Hquiet].
      apply Z.gtb_lt in Hquiet.
      destruct (Z.gtb_spec (now' - last r) resetTime); [| lia].
      rewrite !lookup_insert_eq. reflexivity.
    + destruct (now' - last r >? resetTime);
        rewrite !lookup_insert_eq; reflexivity.
  - intros k r Hk. rewrite lookup_cleanup in Hk.
    destruct (attempts !! k) as [r' |]; [| discriminate].
    destruct (stale now r'); [discriminate | exact Hk].
Qed.

(** X4.  The list of locked accounts agrees with [isLocked]: an identity is
    listed exactly when [isLocked] would answer locked at the same time, and
    then with the same lock end and the same remaining minutes. *)
Theorem getLockedAccounts_agrees_with_isLocked
    now email (attempts : gmap string record) :
  fst (isLocked now email attempts)
  = match getLockedAccounts now attempts !! toLowerCase email with
    | Some e => Locked (remainingMinutes e) (lockedUntil e)
    | None => NotLocked
    end.
Proof.
  unfold getLockedAccounts, Lockout.isLocked. rewrite lookup_omap.
  destruct (attempts !! toLowerCase email) as [r |]; [| reflexivity].
  simpl. unfold listed.
  destruct (locked r) as [l |] eqn:Hl; [| reflexivity].
  destruct (truthy (Some l)); [| reflexivity]. simpl.
  rewrite Z.gtb_ltb.
  destruct (now <? l); reflexivity.
Qed.

(** A burst of failures for one address touches no other key. *)
Lemma burst_elsewhere email failures (attempts : gmap string record) k :
  k <> toLowerCase email ->
  burst email failures attempts !! k = attempts !! k.
Proof.
  intros Hk. revert attempts.
  induction failures as [| f failures IH]; intros attempts; [reflexivity |].
  unfold LockoutAdmin.burst in *. simpl. rewrite IH.
  apply LockoutFacts.failed_elsewhere. exact Hk.
Qed.

(** X5.  The middleware looks the lock up under the lower-cased, trimmed and
    again lower-cased address, while [recordFailedAttempt] files failures
    under the lower-cased address as given.  For an address for which the two
    keys differ (and with nothing stored under the former), the middleware
    lets the request through however many failures have been recorded for
    that address. *)
Theorem untrimmed_failures_do_not_block
    now email failures (attempts : gmap string record) :
  email <> "" ->
  toLowerCase (trim (toLowerCase email)) <> toLowerCase email ->
  attempts !! toLowerCase (trim (toLowerCase email)) = None ->
  checkAccountLockout now (Some email) (burst email failures attempts)
  = (Next, burst email failures attempts).
Proof.
  intros Hne Hkeys Hfree. unfold LockoutAdmin.checkAccountLockout.
  destruct (String.eqb_spec email ""); [contradiction |].
  rewrite (LockoutFacts.isLocked_absent toLowerCase); [reflexivity |].
  rewrite burst_elsewhere; assumption.
Qed.

End WithStringPrimitives.

Lemma other_identities_untouched_witness :
  Lockout.recordFailedAttempt lower 64000 ann "198.51.100.7"
    (Lockout.after lower five) !! lower "bob@example.com"
  = Lockout.after lower five !! lower "bob@example.com" /\
  Lockout.recordSuccessfulLogin lower ann (Lockout.after lower five)
    !! lower "bob@example.com"
  = Lockout.after lower five !! lower "bob@example.com" /\
  fst (Lockout.isLocked lower 70000 "bob@example.com"
         (Lockout.recordFailedAttempt lower 64000 ann "198.51.100.7"
            (Lockout.after lower five)))
  = fst (Lockout.isLocked lower 70000 "bob@example.com"
           (Lockout.after lower five)) /\
  fst (Lockout.isLocked lower 70000 "bob@example.com"
         (Lockout.recordSuccessfulLogin lower ann (Lockout.after lower five)))
  = fst (Lockout.isLocked lower 70000 "bob@example.com"
           (Lockout.after lower five)).
Proof.
  apply (other_identities_untouched lower 64000 ann "198.51.100.7"
           (Lockout.after lower five) "bob@example.com" 70000).
  vm_compute. discriminate.
Defined.

Lemma reachable_record_shape_witness :
  count locked_record = Z.of_nat (length (ips locked_record)) /\
  1 <= count locked_record /\
  (locked locked_record = None <-> count locked_record < max).
Proof.
  apply (reachable_record_shape lower five (lower ann) locked_record).
  vm_compute. reflexivity.
Defined.

Lemma cleanup_is_unobservable_witness :
  fst (Lockout.isLocked lower 4000000 ann
         (Lockout.cleanup 3600000 (Lockout.after lower five)))
  = fst (Lockout.isLocked lower 4000000 ann (Lockout.after lower five)) /\
  Lockout.recordFailedAttempt lower 4000000 ann "198.51.100.7"
    (Lockout.cleanup 3600000 (Lockout.after lower five)) !! lower ann
  = Lockout.recordFailedAttempt lower 4000000 ann "198.51.100.7"
      (Lockout.after lower five) !! lower ann /\
  (forall k r,
     Lockout.cleanup 3600000 (Lockout.after lower five) !! k = Some r ->
     Lockout.after lower five !! k = Some r).
Proof.
  apply (cleanup_is_unobservable lower 3600000 4000000 ann "198.51.100.7"
           (Lockout.after lower five)).
  vm_compute. discriminate.
Defined.

Definition padded : string := " Ann@Example.com".

Definition five_failures : list (Z * string) :=
  [ (0, "198.51.100.7"); (1000, "198.51.100.7"); (2000, "198.51.100.7");
    (3000, "198.51.100.7"); (4000, "198.51.100.7") ].

Lemma untrimmed_failures_do_not_block_witness :
  LockoutAdmin.checkAccountLockout lower strip 64000 (Some padded)
    (LockoutAdmin.burst lower padded five_failures ∅)
  = (Next, LockoutAdmin.burst lower padded five_failures ∅) /\
  fst (Lockout.isLocked lower 64000 padded
         (LockoutAdmin.burst lower padded five_failures ∅))
  = Locked 29 1804000.
Proof.
  split.
  - apply (untrimmed_failures_do_not_block lower strip 64000 padded
             five_failures ∅).
    + discriminate.
    + vm_compute. discriminate.
    + reflexivity.
  - vm_compute. reflexivity.
Defined.

End LockoutAdminFacts.

(** ** Further properties of soc-controls.js *)

Module SocControlsFacts.
Import Fraud.

(** *** Address reputation *)

Definition agrees (a b : nat) (ch : ascii) (rest : string) : bool :=
  Bool.eqb
    (isProxy
       (checkIPReputation
          (Ipv4.dec a ++ "." ++ Ipv4.dec b ++ "." ++ String ch rest)%string))
    (Ipv4.rfc1918 a b).

Lemma agrees_on_all_octets ch rest :
  forallb (fun a => forallb (fun b => agrees a b ch rest) (seq 0 256))
          (seq 0 256) = true.
Proof. destruct rest as [| ch' rest']; vm_compute; reflexivity. Qed.

Lemma dec_nonempty n : exists ch rest, Ipv4.dec n = String ch rest.
Proof.
  unfold Ipv4.dec. destruct (Nat.to_uint n); simpl; eauto.
Qed.

(** X6.  On a dotted-decimal IPv4 address, [checkIPReputation] reports a proxy
    exactly for the private ranges 10.0.0.0/8, 172.16.0.0/12 and
    192.168.0.0/16; every public address, and the loopback and link-local
    ranges, pass. *)
Theorem proxy_iff_private_range (a b c d : nat) :
  (a < 256)%nat -> (b < 256)%nat ->
  isProxy (checkIPReputation (Ipv4.dotted a b c d)) = Ipv4.rfc1918 a b.
Proof.
  intros Ha Hb.
  destruct (dec_nonempty c) as (ch & rest & Hc).
  pose proof (agrees_on_all_octets ch (rest ++ "." ++ Ipv4.dec d)%string)
    as Hall.
  rewrite forallb_forall in Hall.
  specialize (Hall a). rewrite forallb_forall in Hall.
  assert (Hin : forall n, (n < 256)%nat -> In n (seq 0 256))
    by (intros n Hn; apply in_seq; lia).
  specialize (Hall (Hin a Ha) b (Hin b Hb)).
  unfold agrees in Hall. apply Bool.eqb_prop in Hall.
  unfold Ipv4.dotted. rewrite Hc. exact Hall.
Qed.

Lemma proxy_iff_private_range_witness :
  isProxy (checkIPReputation (Ipv4.dotted 172 20 1 5)) = Ipv4.rfc1918 172 20.
Proof.
  apply (proxy_iff_private_range 172 20 1 5); lia.
Defined.

(** *** The score and its flags *)

(** X7.  The risk score is the sum of the weights of the flags raised, each
    flag is raised at most once, so the score lies between 0 and 115; the
    [approved] field and the decision never disagree. *)
Theorem score_is_sum_of_flag_weights scope now t :
  let a := analyzeTransaction_in scope now t in
  riskScore a = fold_right Z.add 0 (map flag_weight (flags a)) /\
  0 <= riskScore a <= 115 /\
  List.NoDup (flags a) /\
  (approved a = true <-> decision_of a = APPROVED).
Proof.
  intros a. subst a. unfold analyzeTransaction_in.
  set (recent := getRecentTransactions_in scope now (userId t) 600000).
  destruct (FraudFacts.score_with_cases recent t) as [Hscore Hflags].
  destruct (FraudFacts.decision_rule recent t) as (_ & Happroved & Hok & _).
  cbv zeta in Hscore, Hflags, Happroved, Hok.
  split; [| split; [| split]].
  - rewrite Hscore, Hflags.
    destruct (VELOCITY <=? length recent)%nat;
      destruct (HIGH_VALUE <? amount t)%float;
      destruct (0 <? length _)%nat;
      destruct (isProxy (checkIPReputation (ip t))); reflexivity.
  - rewrite Hscore.
    destruct (VELOCITY <=? length recent)%nat;
      destruct (HIGH_VALUE <? amount t)%float;
      destruct (0 <? length _)%nat;
      destruct (isProxy (checkIPReputation (ip t))); lia.
  - rewrite Hflags.
    destruct (VELOCITY <=? length recent)%nat;
      destruct (HIGH_VALUE <? amount t)%float;
      destruct (0 <? length _)%nat;
      destruct (isProxy (checkIPReputation (ip t)));
      simpl; repeat constructor; simpl; intuition discriminate.
  - rewrite Hok, Happroved. reflexivity.
Qed.

(** X8.  As the module is written, no history ever reaches the scorer: the
    flags HIGH_VELOCITY and DUPLICATE are never raised, the score is 0, 20,
    40 or 60, a transaction is blocked exactly when its amount exceeds 1000
    and its address is in a private range pattern, and it is marked for
    manual review exactly when only the address is suspicious. *)
Theorem scorer_as_written now t :
  let high := (HIGH_VALUE <? amount t)%float in
  let proxy := isProxy (checkIPReputation (ip t)) in
  let a := analyzeTransaction now t in
  flags a
  = ((if high then ["HIGH_VALUE"] else [])
     ++ (if proxy then ["SUSPICIOUS_IP"] else []))%list /\
  riskScore a = (if high then 20 else 0) + (if proxy then 40 else 0) /\
  (decision_of a = BLOCKED <-> high = true /\ proxy = true) /\
  (requiresManualReview a = true <-> high = false /\ proxy = true).
Proof.
  intros high proxy a. subst a.
  unfold analyzeTransaction, analyzeTransaction_in. simpl.
  unfold score_with. simpl length. cbv iota beta.
  change (VELOCITY <=? 0)%nat with false.
  change (0 <? 0)%nat with false. cbv iota.
  fold high. change (isProxy (checkIPReputation (ip t))) with proxy.
  change (isTor (checkIPReputation (ip t))) with false.
  rewrite orb_false_r.
  destruct high, proxy; simpl; repeat split; intros; try reflexivity;
    try discriminate; try (destruct H; discriminate).
Qed.

(** *** Role-based access *)

Section Permissions.
Import Rbac.

Lemma includes_In l x : includes l x = true <-> In x l.
Proof.
  unfold includes. rewrite existsb_exists. split.
  - intros (y & Hy & Heq). apply String.eqb_eq in Heq. subst y. exact Hy.
  - intros Hx. exists x. split; [exact Hx | apply String.eqb_refl].
Qed.

(** The loop over well-named roles never throws and finds a role exactly
    when some role of the list grants the action. *)
Lemma first_granting_spec roles action :
  Forall (fun role => FINANCIAL_ROLES role <> Member) roles ->
  exists found,
    first_granting roles action = Resolved found /\
    (forall role, found = Some role -> In role roles /\ grants role action) /\
    (found = None -> forall role, In role roles -> ~ grants role action).
Proof.
  intros Hnames. induction Hnames as [| r rs Hr _ IH]; simpl.
  - exists None. split; [reflexivity | split].
    + intros role Hrole. discriminate Hrole.
    + intros _ role [].
  - destruct IH as (found & Hfound & Hsome & Hnone).
    destruct (FINANCIAL_ROLES r) as [l | |] eqn:Hlook; [| congruence |].
    + destruct (includes l action) eqn:Hinc.
      * exists (Some r). split; [reflexivity | split; [| discriminate]].
        intros role [= <-]. split; [left; reflexivity |].
        exists l. split; [exact Hlook | apply includes_In, Hinc].
      * exists found. split; [exact Hfound | split].
        -- intros role Hrole. destruct (Hsome role Hrole).
           split; [right |]; assumption.
        -- intros Hf role [<- | Hin]; [| exact (Hnone Hf role Hin)].
           intros (l' & Hl' & Hact). rewrite Hlook in Hl'.
           injection Hl' as <-. apply includes_In in Hact. congruence.
    + exists found. split; [exact Hfound | split].
      * intros role Hrole. destruct (Hsome role Hrole).
        split; [right |]; assumption.
      * intros Hf role [<- | Hin]; [| exact (Hnone Hf role Hin)].
        intros (l' & Hl' & _). congruence.
Qed.

(** Who is granted what, for role lists without inherited member names. *)
Lemma permission_spec u action :
  Forall (fun role => FINANCIAL_ROLES role <> Member)
         (default [] (financialRoles u)) ->
  exists granted ev,
    checkFinancialPermission u action = Resolved (granted, ev) /\
    (granted = true <->
     In "SUPER_ADMIN" (default [] (financialRoles u)) \/
     exists role, In role (default [] (financialRoles u))
                  /\ grants role action) /\
    ev_result ev = (if granted then "GRANTED" else "DENIED").
Proof.
  intros Hnames. unfold checkFinancialPermission.
  set (roles := default [] (financialRoles u)) in *.
  destruct (includes roles "SUPER_ADMIN") eqn:Hsuper.
  - eexists true, _. split; [reflexivity | split; [| reflexivity]].
    split; [intros _; left; apply includes_In, Hsuper | reflexivity].
  - destruct (first_granting_spec roles action Hnames)
      as (found & Hfound & Hsome & Hnone).
    unfold mbind, outcome_bind. rewrite Hfound. simpl.
    destruct found as [role |].
    + eexists true, _. split; [reflexivity | split; [| reflexivity]].
      split; [intros _; right; exists role; apply Hsome; reflexivity
             | reflexivity].
    + eexists false, _. split; [reflexivity | split; [| reflexivity]].
      split; [discriminate |].
      intros [Hin | (role & Hin & Hg)].
      * apply includes_In in Hin. congruence.
      * exfalso. exact (Hnone eq_refl role Hin Hg).
Qed.

(** X9.  For a user whose role names are none of the names inherited from
    [Object.prototype], the check resolves; it grants exactly when the user
    holds SUPER_ADMIN or holds a role whose declared list contains the
    action, and the logged event says GRANTED or DENIED accordingly. *)
Theorem permission_granted_iff_role_lists_action u action :
  Forall (fun role => FINANCIAL_ROLES role <> Member)
         (default [] (financialRoles u)) ->
  exists granted ev,
    checkFinancialPermission u action = Resolved (granted, ev) /\
    (granted = true <->
     In "SUPER_ADMIN" (default [] (financialRoles u)) \/
     exists role, In role (default [] (financialRoles u))
                  /\ grants role action) /\
    ev_result ev = (if granted then "GRANTED" else "DENIED").
Proof. exact (permission_spec u action). Qed.

(** X10.  Holding more roles never loses a permission: if a user is granted an
    action, so is every user whose roles include the first one's. *)
Theorem more_roles_never_revoke u u' action ev :
  Forall (fun role => FINANCIAL_ROLES role <> Member)
         (default [] (financialRoles u)) ->
  Forall (fun role => FINANCIAL_ROLES role <> Member)
         (default [] (financialRoles u')) ->
  incl (default [] (financialRoles u)) (default [] (financialRoles u')) ->
  checkFinancialPermission u action = Resolved (true, ev) ->
  exists ev', checkFinancialPermission u' action = Resolved (true, ev').
Proof.
  intros Hu Hu' Hincl Hgranted.
  destruct (permission_spec u action Hu) as (g & e & Hrun & Hiff & _).
  rewrite Hgranted in Hrun. injection Hrun as <- <-.
  destruct (permission_spec u' action Hu') as (g' & e' & Hrun' & Hiff' & _).
  assert (g' = true) as ->.
  { apply Hiff'. destruct (proj1 Hiff eq_refl) as [Hs | (role & Hin & Hg)].
    - left. apply Hincl, Hs.
    - right. exists role. split; [apply Hincl, Hin | exact Hg]. }
  exists e'. exact Hrun'.
Qed.

(** X11.  A role named like a member inherited from [Object.prototype] makes the
    check throw, instead of denying or going on to a later role that would
    grant, unless SUPER_ADMIN or an earlier role has already decided. *)
Theorem inherited_role_name_throws u action before role later :
  financialRoles u = Some (before ++ role :: later)%list ->
  ~ In "SUPER_ADMIN" (before ++ role :: later)%list ->
  FINANCIAL_ROLES role = Member ->
  Forall (fun r => FINANCIAL_ROLES r <> Member /\ ~ grants r action) before ->
  exists message, checkFinancialPermission u action = Rejected message.
Proof.
  intros Hroles Hsuper Hmember Hbefore. unfold checkFinancialPermission.
  rewrite Hroles. simpl default.
  destruct (includes (before ++ role :: later) "SUPER_ADMIN") eqn:Hinc;
    [apply includes_In in Hinc; contradiction |].
  assert (Hloop : exists message,
            first_granting (before ++ role :: later) action
            = Rejected message).
  { clear Hroles Hsuper Hinc.
    induction Hbefore as [| r before [Hr Hng] _ IH]; simpl.
    - rewrite Hmember. eauto.
    - destruct (FINANCIAL_ROLES r) as [l | |] eqn:Hlook;
        [| congruence | exact IH].
      destruct (includes l action) eqn:Hinc; [| exact IH].
      exfalso. apply Hng. exists l. split; [exact Hlook |].
      apply includes_In, Hinc. }
  destruct Hloop as [message Hloop].
  exists message. unfold mbind, outcome_bind. rewrite Hloop. reflexivity.
Qed.

End Permissions.

Definition reviewer : Rbac.user :=
  {| Rbac.user_id := "u-17";
     Rbac.financialRoles := Some ["FINANCIAL_REVIEWER"];
     Rbac.user_ip := Some "203.0.113.9" |}.

Definition reviewer_and_admin : Rbac.user :=
  {| Rbac.user_id := "u-18";
     Rbac.financialRoles :=
       Some ["PAYMENT_PROCESSOR"; "FINANCIAL_REVIEWER"; "FINANCIAL_ADMIN"];
     Rbac.user_ip := None |}.

Definition oddly_named : Rbac.user :=
  {| Rbac.user_id := "u-19";
     Rbac.financialRoles :=
       Some ["PAYMENT_PROCESSOR"; "constructor"; "FINANCIAL_ADMIN"];
     Rbac.user_ip := None |}.

Lemma permission_granted_iff_role_lists_action_witness :
  exists granted ev,
    Rbac.checkFinancialPermission reviewer "approve_refund"
    = Resolved (granted, ev) /\
    (granted = true <->
     In "SUPER_ADMIN" (default [] (Rbac.financialRoles reviewer)) \/
     exists role, In role (default [] (Rbac.financialRoles reviewer))
                  /\ Rbac.grants role "approve_refund") /\
    Rbac.ev_result ev = (if granted then "GRANTED" else "DENIED").
Proof.
  apply (permission_granted_iff_role_lists_action reviewer "approve_refund").
  repeat constructor; discriminate.
Defined.

Lemma more_roles_never_revoke_witness :
  exists ev',
    Rbac.checkFinancialPermission reviewer_and_admin "approve_refund"
    = Resolved (true, ev').
Proof.
  eapply (more_roles_never_revoke reviewer reviewer_and_admin
            "approve_refund").
  - repeat constructor; discriminate.
  - repeat constructor; discriminate.
  - intros r [<- | []]. simpl. tauto.
  - vm_compute. reflexivity.
Defined.

Lemma inherited_role_name_throws_witness :
  exists message,
    Rbac.checkFinancialPermission oddly_named "generate_report"
    = Rejected message.
Proof.
  apply (inherited_role_name_throws oddly_named "generate_report"
           ["PAYMENT_PROCESSOR"] "constructor" ["FINANCIAL_ADMIN"]).
  - reflexivity.
  - simpl. intros [H | [H | [H | []]]]; discriminate H.
  - reflexivity.
  - constructor; [| constructor]. split; [discriminate |].
    intros (l & Hl & Hin). injection Hl as <-.
    destruct Hin as [H | [H | []]]; discriminate H.
Defined.

(** *** [maskEmail] *)

Section Masking.
Import Mask.







End Masking.



(** *** [logConfidentialAccess] *)

Section ConfidentialAccess.
Import Logger.

(** X14.  Unlike the other loggers, [logConfidentialAccess] can reject.  For an
    access that is not RESTRICTED it resolves with the data and raises no
    alert, whatever the store does.  For a RESTRICTED access it rejects
    exactly when the lookup of recent accesses rejects, with that error,
    although the access itself has been submitted for writing by then;
    otherwise it resolves, and it raises the SUSPICIOUS_ACCESS alert exactly
    when more than ten recent accesses were found. *)
Theorem restricted_lookup_failure_propagates st now a :
  (a_classification a <> "RESTRICTED" ->
   exists d,
     logConfidentialAccess st now a = Resolved (d, None) /\
     severity d = "MEDIUM") /\
  (a_classification a = "RESTRICTED" ->
   match find_recent st with
   | Rejected m => logConfidentialAccess st now a = Rejected m
   | Resolved recent =>
       exists d raised,
         logConfidentialAccess st now a = Resolved (d, raised) /\
         severity d = "HIGH" /\
         (raised <> None <-> (10 < length recent)%nat) /\
         (forall al, raised = Some al ->
                     alert_count al = length recent /\
                     alert_severity al = "CRITICAL" /\
                     alert_userId al = a_userId a)
   end).
Proof.
  unfold logConfidentialAccess, mbind, outcome_bind. simpl. split.
  - intros Hclass.
    destruct (String.eqb_spec (a_classification a) "RESTRICTED");
      [contradiction |].
    eexists. split; reflexivity.
  - intros ->. simpl.
    destruct (find_recent st) as [recent | m]; simpl; [| reflexivity].
    destruct (Nat.ltb_spec 10 (length recent)) as [Hmany | Hfew].
    + eexists _, _. split; [reflexivity | split; [reflexivity | split]].
      * split; [intros _; exact Hmany | discriminate].
      * intros al [= <-]. repeat split.
    + eexists _, _. split; [reflexivity | split; [reflexivity | split]].
      * split; [congruence | lia].
      * discriminate.
Qed.

End ConfidentialAccess.

End SocControlsFacts.

(** ** Further properties of the monitoring module *)

Module MonitoringFacts.
Import Compliance.

(** *** Recent events *)

Section RecentEvents.
Import Events.

Lemma insert_In e x sorted : In x (insert e sorted) <-> x = e \/ In x sorted.
Proof.
  induction sorted as [| y rest IH]; simpl.
  - intuition congruence.
  - destruct (ev_timestamp y <=? ev_timestamp e); simpl;
      [| rewrite IH]; intuition congruence.
Qed.

Lemma insert_length e sorted : length (insert e sorted) = S (length sorted).
Proof.
  induction sorted as [| y rest IH]; simpl; [reflexivity |].
  destruct (ev_timestamp y <=? ev_timestamp e); simpl; [| rewrite IH];
    reflexivity.
Qed.

Lemma insert_keeps_order e sorted :
  newest_first sorted -> newest_first (insert e sorted).
Proof.
  unfold newest_first.
  induction sorted as [| y rest IH]; intros Hs; simpl.
  - constructor; constructor.
  - apply StronglySorted_inv in Hs as [Hrest Hy].
    destruct (Z.leb_spec (ev_timestamp y) (ev_timestamp e)) as [Hle | Hgt].
    + constructor; [constructor; assumption |].
      constructor; [exact Hle |].
      apply List.Forall_forall. intros z Hz.
      rewrite List.Forall_forall in Hy. specialize (Hy z Hz). simpl in Hy. lia.
    + constructor; [apply IH, Hrest |].
      apply List.Forall_forall. intros z Hz. apply insert_In in Hz as [-> | Hz].
      * lia.
      * rewrite List.Forall_forall in Hy. apply Hy, Hz.
Qed.

Lemma sort_recent_In x events : In x (sort_recent events) <-> In x events.
Proof.
  induction events as [| e events IH]; simpl; [tauto |].
  rewrite insert_In, IH. intuition congruence.
Qed.

Lemma sort_recent_length events :
  length (sort_recent events) = length events.
Proof.
  induction events as [| e events IH]; simpl; [reflexivity |].
  rewrite insert_length, IH. reflexivity.
Qed.

Lemma sort_recent_ordered events : newest_first (sort_recent events).
Proof.
  induction events as [| e events IH]; simpl.
  - constructor.
  - apply insert_keeps_order, IH.
Qed.

Lemma firstn_In {A : Type} n (l : list A) x : In x (firstn n l) -> In x l.
Proof.
  revert n. induction l as [| y l IH]; intros n Hx.
  - rewrite firstn_nil in Hx. exact Hx.
  - destruct n as [| n]; simpl in Hx; [contradiction |].
    destruct Hx as [-> | Hx]; [left; reflexivity | right; exact (IH n Hx)].
Qed.

Lemma firstn_keeps_order n events :
  newest_first events -> newest_first (firstn n events).
Proof.
  unfold newest_first. revert n.
  induction events as [| e events IH]; intros n Hs.
  - rewrite firstn_nil. constructor.
  - destruct n as [| n]; simpl; [constructor |].
    apply StronglySorted_inv in Hs as [Hrest He].
    constructor; [apply IH, Hrest |].
    apply List.Forall_forall. intros z Hz.
    rewrite List.Forall_forall in He. apply He.
    exact (firstn_In n events z Hz).
Qed.

Lemma slice_to_In {A : Type} limit (l : list A) x :
  In x (slice_to limit l) -> In x l.
Proof. unfold slice_to. apply firstn_In. Qed.

Lemma slice_to_length {A : Type} limit (l : list A) :
  0 <= limit -> Z.of_nat (length (slice_to limit l)) <= limit.
Proof.
  intros Hpos. unfold slice_to.
  destruct (Z.ltb_spec limit 0); [lia |].
  rewrite length_firstn. lia.
Qed.

(** Where a fetched event comes from. *)
Definition from (type own category icon : string)
    (query : outcome (list document)) (e : event) : Prop :=
  (type = "all" \/ type = own) /\
  exists docs d, query = Resolved docs /\ In d docs /\ e = tag category icon d.

Lemma fetch_resolved type own category icon query events events' :
  fetch type own category icon query events = Resolved events' ->
  forall e, In e events' ->
            In e events \/ from type own category icon query e.
Proof.
  unfold fetch, from.
  destruct (String.eqb_spec type "all") as [Hall | _];
    [| destruct (String.eqb_spec type own) as [Hown | _]]; simpl.
  - destruct query as [docs | m]; simpl; [| discriminate].
    intros [= <-] e He. apply in_app_or in He as [He | He]; [left; exact He |].
    right. apply in_map_iff in He as (d & <- & Hd). eauto 8.
  - destruct query as [docs | m]; simpl; [| discriminate].
    intros [= <-] e He. apply in_app_or in He as [He | He]; [left; exact He |].
    right. apply in_map_iff in He as (d & <- & Hd). eauto 8.
  - intros [= <-] e He. left. exact He.
Qed.

Lemma fetch_rejected type own category icon query events m :
  (type = "all" \/ type = own) ->
  query = Rejected m ->
  fetch type own category icon query events = Rejected m.
Proof.
  intros Hguard ->. unfold fetch.
  destruct Hguard as [-> | ->]; [reflexivity |].
  rewrite String.eqb_refl, orb_true_r. reflexivity.
Qed.

(** X15.  [getRecentEvents] returns its events most recent first and, for a
    non-negative limit, at most [limit] of them; every event returned is a
    document of one of the fetched logs, tagged with that log's category
    (for a [type] other than 'all', only the log of that name is read); and
    if any of the queries it issues throws, it returns the empty list
    instead of what the other logs delivered. *)
Theorem recent_events_ordered_and_bounded db limit type :
  let lim := default 50 limit in
  let ty := default "all" type in
  let recent := getRecentEvents db limit type in
  newest_first recent /\
  (0 <= lim -> Z.of_nat (length recent) <= lim) /\
  (forall e, In e recent ->
     from ty "security" "SECURITY" "🔐" (find_security db lim) e \/
     from ty "financial" "FINANCIAL" "💰" (find_financial db lim) e \/
     from ty "privacy" "PRIVACY" "🔒" (find_privacy db lim) e \/
     from ty "confidential" "CONFIDENTIAL" "🔐" (find_confidential db lim) e) /\
  (forall m,
     ((ty = "all" \/ ty = "security") /\ find_security db lim = Rejected m) \/
     ((ty = "all" \/ ty = "financial") /\ find_financial db lim = Rejected m) \/
     ((ty = "all" \/ ty = "privacy") /\ find_privacy db lim = Rejected m) \/
     ((ty = "all" \/ ty = "confidential")
      /\ find_confidential db lim = Rejected m) ->
     recent = []).
Proof.
  intros lim ty recent. subst recent. unfold getRecentEvents.
  fold lim. fold ty. unfold mbind, outcome_bind.
  destruct (fetch ty "security" "SECURITY" "🔐" (find_security db lim) [])
    as [e1 | m1] eqn:H1; simpl.
  2:{ repeat split; try constructor; try (simpl; lia);
        intros; contradiction. }
  destruct (fetch ty "financial" "FINANCIAL" "💰" (find_financial db lim) e1)
    as [e2 | m2] eqn:H2; simpl.
  2:{ repeat split; try constructor; try (simpl; lia);
        intros; contradiction. }
  destruct (fetch ty "privacy" "PRIVACY" "🔒" (find_privacy db lim) e2)
    as [e3 | m3] eqn:H3; simpl.
  2:{ repeat split; try constructor; try (simpl; lia);
        intros; contradiction. }
  destruct (fetch ty "confidential" "CONFIDENTIAL" "🔐"
              (find_confidential db lim) e3) as [e4 | m4] eqn:H4; simpl.
  2:{ repeat split; try constructor; try (simpl; lia);
        intros; contradiction. }
  split; [| split; [| split]].
  - apply firstn_keeps_order, sort_recent_ordered.
  - apply slice_to_length.
  - intros e He. apply slice_to_In in He.
    apply (proj1 (sort_recent_In e e4)) in He.
    destruct (fetch_resolved _ _ _ _ _ _ _ H4 e He) as [He3 | Hfrom];
      [| tauto].
    destruct (fetch_resolved _ _ _ _ _ _ _ H3 e He3) as [He2 | Hfrom];
      [| tauto].
    destruct (fetch_resolved _ _ _ _ _ _ _ H2 e He2) as [He1 | Hfrom];
      [| tauto].
    destruct (fetch_resolved _ _ _ _ _ _ _ H1 e He1) as [[] | Hfrom].
    tauto.
  - intros m [[Hg Hq] | [[Hg Hq] | [[Hg Hq] | [Hg Hq]]]].
    + rewrite (fetch_rejected _ _ _ _ _ _ _ Hg Hq) in H1. discriminate.
    + rewrite (fetch_rejected _ _ _ _ _ _ _ Hg Hq) in H2. discriminate.
    + rewrite (fetch_rejected _ _ _ _ _ _ _ Hg Hq) in H3. discriminate.
    + rewrite (fetch_rejected _ _ _ _ _ _ _ Hg Hq) in H4. discriminate.
Qed.

End RecentEvents.

(** *** Audit analytics *)

Section AuditAnalytics.
Import Analytics.



End AuditAnalytics.

(** *** Health check *)

Section HealthCheck.
Import Health.

(** X17.  [performHealthCheck] never throws.  The overall status is UP exactly
    when the database connection reports state 1, and DEGRADED otherwise
    (also when reading the state throws); memory use never changes the
    overall status, it only sets the memory check to WARNING, which happens
    exactly from 523,763,712 bytes of used heap on (499.5 MiB, which rounds
    to 500). *)
Theorem health_status_follows_database p :
  exists h,
    performHealthCheck p = Resolved h /\
    (status h = "UP" <-> readyState p = Resolved 1) /\
    (status h = "DEGRADED" <-> readyState p <> Resolved 1) /\
    (check_database h = DbUp <-> status h = "UP") /\
    (memory_status h = "WARNING" <-> 523763712 <= heapUsed p) /\
    (memory_status h = "UP" <-> heapUsed p < 523763712).
Proof.
  unfold performHealthCheck, mbind, outcome_bind. simpl.
  eexists. split; [reflexivity |]. simpl.
  assert (Hmem : round_div (heapUsed p) (1024 * 1024) < 500
                 <-> heapUsed p < 523763712).
  { unfold round_div. split; intros H.
    - destruct (Z.lt_ge_cases (heapUsed p) 523763712) as [Hlt | Hge];
        [exact Hlt | exfalso].
      assert (500 <= (2 * heapUsed p + 1024 * 1024) / (2 * (1024 * 1024)))
        by (apply Z.div_le_lower_bound; lia).
      lia.
    - apply Z.div_lt_upper_bound; lia. }
  repeat split.
  - destruct (readyState p) as [st | m]; [| discriminate].
    destruct (Z.eqb_spec st 1) as [-> | _]; [reflexivity | discriminate].
  - intros ->. reflexivity.
  - destruct (readyState p) as [st | m]; [| discriminate].
    destruct (Z.eqb_spec st 1) as [-> | Hne]; [discriminate |].
    intros _ [= ->]. congruence.
  - destruct (readyState p) as [st | m]; [| reflexivity].
    destruct (Z.eqb_spec st 1) as [-> | Hne]; [congruence | reflexivity].
  - destruct (readyState p) as [st | m]; [| discriminate].
    destruct (st =? 1); [reflexivity | discriminate].
  - destruct (readyState p) as [st | m]; [| discriminate].
    destruct (st =? 1); [reflexivity | discriminate].
  - destruct (Z.ltb_spec (round_div (heapUsed p) (1024 * 1024)) 500)
      as [Hlt | Hge]; [discriminate |].
    intros _.
    destruct (Z.lt_ge_cases (heapUsed p) 523763712) as [Hc | Hc];
      [apply Hmem in Hc; lia | exact Hc].
  - intros Hbig.
    destruct (Z.ltb_spec (round_div (heapUsed p) (1024 * 1024)) 500)
      as [Hlt | Hge]; [apply Hmem in Hlt; lia | reflexivity].
  - destruct (Z.ltb_spec (round_div (heapUsed p) (1024 * 1024)) 500)
      as [Hlt | Hge]; [intros _; apply Hmem, Hlt | discriminate].
  - intros Hsmall. apply Hmem in Hsmall.
    destruct (Z.ltb_spec (round_div (heapUsed p) (1024 * 1024)) 500)
      as [Hlt | Hge]; [reflexivity | lia].
Qed.

End HealthCheck.

(** *** Runs, their audit tail and their history *)

Section Runs.
Import AuditTail.

Variable parseInt : string -> float.
Variable numberToString : float -> string.

Local Abbreviation registered :=
  (Compliance.registered parseInt numberToString).
Local Abbreviation runContinuousChecks :=
  (Compliance.runContinuousChecks parseInt numberToString).
Local Abbreviation auditLog_after :=
  (AuditTail.auditLog_after parseInt numberToString).
Local Abbreviation history_after :=
  (AuditTail.history_after parseInt numberToString).

(** The seven results of a run: three of them carry no issue in any
    deployment. *)
Definition results_of (i1 i3 i4 i7 : list string) : list CheckResult :=
  [ result "CC6.1" "Authentication Controls" i1;
    result "CC6.3/CC6.4" "Encryption Controls" [];
    result "A1.2" "Database Connectivity" i3;
    result "C1.2" "Access Log Controls" i4;
    result "CC6.1" "Rate Limiting Controls" [];
    result "CC6.2" "CORS Configuration" [];
    result "CC6.1" "Token Expiration Policy" i7 ].

Lemma registered_shape w :
  exists i1 i3 i4 i7,
    Promise.all (registered w) = Resolved (results_of i1 i3 i4 i7).
Proof.
  unfold Compliance.registered, checkAuth, checkEncryption, checkDatabase,
    checkLogs, checkRateLimit, checkCORS, checkTokenExpiry.
  eexists _, _, _, _. reflexivity.
Qed.

Lemma run_shape w history :
  exists i1 i3 i4 i7,
    runContinuousChecks w history
    = Resolved (summarize (summary_time w) (results_of i1 i3 i4 i7),
                map_set (store_time w)
                        (summarize (summary_time w) (results_of i1 i3 i4 i7))
                        history).
Proof.
  destruct (registered_shape w) as (i1 & i3 & i4 & i7 & Hall).
  exists i1, i3, i4, i7.
  unfold Compliance.runContinuousChecks. rewrite Hall.
  unfold mbind, outcome_bind, alert, logged. simpl.
  destruct (0 <? length _)%nat; reflexivity.
Qed.

(** X18.  In every deployment at least three of the seven controls pass
    (encryption, rate limiting and CORS have no failing path), so a run
    never reports more than four failures, and only the authentication,
    database, access-log and token-expiry controls can be among them. *)
Theorem at_most_four_checks_fail w history :
  exists s h,
    runContinuousChecks w history = Resolved (s, h) /\
    sum_failed s <= 4 /\
    3 <= sum_passed s /\
    (forall r, In r (details s) -> passed r = false ->
       In (name r)
          [ "Authentication Controls"; "Database Connectivity";
            "Access Log Controls"; "Token Expiration Policy" ]).
Proof.
  destruct (run_shape w history) as (i1 & i3 & i4 & i7 & Hrun).
  eexists _, _. split; [exact Hrun |].
  unfold summarize, results_of, result. simpl.
  destruct (length i1 =? 0)%nat, (length i3 =? 0)%nat, (length i4 =? 0)%nat,
    (length i7 =? 0)%nat; simpl;
    (split; [lia | split; [lia |]]);
    intros r Hr Hfailed;
    repeat (destruct Hr as [<- | Hr]; [simpl in *; try discriminate; tauto |]);
    destruct Hr.
Qed.

(** X19.  One run appends one entry to the in-memory audit tail and, once the
    tail holds 1000 entries, drops the oldest: the tail never grows beyond
    1000, and the newest entry is always its last. *)
Theorem audit_tail_is_bounded w time (auditLog : list entry) :
  (length auditLog <= 1000)%nat ->
  exists e,
    auditLog_after w time auditLog
    = ((if (length auditLog <? 1000)%nat then auditLog else skipn 1 auditLog)
       ++ [e])%list /\
    (length (auditLog_after w time auditLog) <= 1000)%nat /\
    entry_timestamp e = time /\
    meta_totalChecks (entry_details e) = 7.
Proof.
  intros Hlen.
  destruct (registered_shape w) as (i1 & i3 & i4 & i7 & Hall).
  unfold AuditTail.auditLog_after. rewrite Hall.
  set (e := entry_of time (results_of i1 i3 i4 i7)).
  exists e. unfold record_entry, push. rewrite length_app. simpl length.
  destruct (Nat.ltb_spec (length auditLog) 1000) as [Hlt | Hge].
  - destruct (Nat.ltb_spec 1000 (length auditLog + 1)); [lia |].
    repeat split. rewrite length_app. simpl. lia.
  - assert (Hfull : length auditLog = 1000%nat) by lia.
    destruct (Nat.ltb_spec 1000 (length auditLog + 1)); [| lia].
    rewrite Hfull. change (1000 + 1 - 1000)%nat with 1%nat.
    assert (Hskip : skipn 1 (auditLog ++ [e]) = (skipn 1 auditLog ++ [e])%list).
    { destruct auditLog; [discriminate Hfull | reflexivity]. }
    rewrite Hskip. repeat split.
    rewrite length_app, length_skipn. simpl. lia.
Qed.

(** A stored summary as [runContinuousChecks] produces it. *)
Definition sound (s : Summary) : Prop :=
  Compliance.totalChecks s = 7 /\ sum_passed s + sum_failed s = 7 /\
  0 <= sum_failed s.

Lemma summary_sound time i1 i3 i4 i7 :
  sound (summarize time (results_of i1 i3 i4 i7)).
Proof.
  unfold sound, summarize, results_of. simpl.
  repeat split; lia.
Qed.

Lemma map_set_In {V : Type} k (v : V) m e :
  In e (map_set k v m) -> e = (k, v) \/ In e m.
Proof.
  induction m as [| [k' v'] m IH]; simpl.
  - intros [<- | []]. left. reflexivity.
  - destruct (k' =? k); simpl; intros [<- | He]; auto.
    destruct (IH He); auto.
Qed.

Lemma map_set_keys {V : Type} k (v : V) m x :
  In x (map fst (map_set k v m)) <-> x = k \/ In x (map fst m).
Proof.
  induction m as [| [k' v'] m IH]; simpl.
  - intuition congruence.
  - destruct (Z.eqb_spec k' k) as [-> | Hne]; simpl.
    + intuition congruence.
    + rewrite IH. intuition congruence.
Qed.

Lemma map_set_NoDup {V : Type} k (v : V) m :
  List.NoDup (map fst m) -> List.NoDup (map fst (map_set k v m)).
Proof.
  induction m as [| [k' v'] m IH]; simpl; intros Hnd.
  - constructor; [intros [] | constructor].
  - apply List.NoDup_cons_iff in Hnd as [Hnotin Hnd].
    destruct (Z.eqb_spec k' k) as [-> | Hne]; simpl.
    + constructor; assumption.
    + constructor; [| apply IH, Hnd].
      rewrite map_set_keys. intros [-> | Hin]; [congruence | contradiction].
Qed.

Lemma map_set_length {V : Type} k (v : V) m :
  length (map_set k v m)
  = if existsb (Z.eqb k) (map fst m) then length m else S (length m).
Proof.
  induction m as [| [k' v'] m IH]; simpl; [reflexivity |].
  rewrite (Z.eqb_sym k k').
  destruct (k' =? k); simpl; [reflexivity |].
  rewrite IH. destruct (existsb (Z.eqb k) (map fst m)); reflexivity.
Qed.

Lemma history_step w (history : list (Z * Summary)) :
  exists s, sound s /\
    history_after [w] history = map_set (store_time w) s history.
Proof.
  destruct (run_shape w history) as (i1 & i3 & i4 & i7 & Hrun).
  eexists. split; [apply (summary_sound (summary_time w) i1 i3 i4 i7) |].
  unfold AuditTail.history_after. simpl. rewrite Hrun. reflexivity.
Qed.

Lemma history_after_snoc worlds w (history : list (Z * Summary)) :
  history_after (worlds ++ [w]) history
  = history_after [w] (history_after worlds history).
Proof. unfold AuditTail.history_after. rewrite fold_left_app. reflexivity. Qed.

(** What holds of the history after any series of runs from a new
    monitor. *)
Lemma history_invariant worlds :
  let h := history_after worlds [] in
  List.Forall (fun e => sound (snd e)) h /\
  List.NoDup (map fst h) /\
  (forall k, In k (map fst h) <-> In k (map store_time worlds)) /\
  (length h <= length worlds)%nat.
Proof.
  induction worlds as [| w worlds IH] using rev_ind.
  - simpl. repeat split; try constructor; simpl; tauto.
  - destruct IH as (Hsound & Hnd & Hkeys & Hlen).
    rewrite history_after_snoc.
    destruct (history_step w (history_after worlds [])) as (s & Hs & ->).
    cbv zeta. split; [| split; [| split]].
    + apply List.Forall_forall. intros e He.
      apply map_set_In in He as [-> | He]; [exact Hs |].
      rewrite List.Forall_forall in Hsound. apply Hsound, He.
    + apply map_set_NoDup, Hnd.
    + intros k. rewrite map_set_keys, Hkeys, map_app, in_app_iff. simpl.
      intuition congruence.
    + rewrite map_set_length, length_app. simpl.
      destruct (existsb _ _); lia.
Qed.

(** X20.  The history keeps one run per millisecond of storing time: its keys
    are exactly the storing times of the runs executed, without repetition,
    so a run stored in the same millisecond as an earlier one replaces it
    and the history can hold fewer runs than were executed; it holds all of
    them when their storing times differ. *)
Theorem history_keeps_one_run_per_time worlds :
  let h := history_after worlds [] in
  List.NoDup (map fst h) /\
  (forall k, In k (map fst h) <-> In k (map store_time worlds)) /\
  (length h <= length worlds)%nat /\
  (List.NoDup (map store_time worlds) -> length h = length worlds).
Proof.
  destruct (history_invariant worlds) as (_ & Hnd & Hkeys & Hlen).
  cbv zeta. split; [exact Hnd | split; [exact Hkeys | split; [exact Hlen |]]].
  intros Htimes.
  rewrite <- (length_map fst), <- (length_map store_time worlds).
  apply Nat.le_antisymm.
  - apply List.NoDup_incl_length; [exact Hnd |].
    intros k Hk. apply Hkeys, Hk.
  - apply List.NoDup_incl_length; [exact Htimes |].
    intros k Hk. apply Hkeys, Hk.
Qed.

Lemma sums_of_sound runs :
  List.Forall sound runs ->
  fold_right Z.add 0 (map Compliance.totalChecks runs)
  = 7 * Z.of_nat (length runs) /\
  fold_right Z.add 0 (map sum_passed runs)
  + fold_right Z.add 0 (map sum_failed runs)
  = fold_right Z.add 0 (map Compliance.totalChecks runs) /\
  0 <= fold_right Z.add 0 (map sum_failed runs).
Proof.
  induction 1 as [| s runs (Ht & Hsum & Hpos) _ (IHt & IHsum & IHpos)].
  - simpl. lia.
  - cbn [map fold_right length]. rewrite Nat2Z.inj_succ. lia.
Qed.

(** X21.  Every report over the monitor's own history is consistent: it covers
    at least one run, counts seven checks per run, its passed and failed
    totals add up to the total, and it is COMPLIANT exactly when every check
    of every run in the window passed. *)
Theorem report_over_own_history_is_consistent worlds now period r :
  generateReport now period (history_after worlds []) = Report r ->
  1 <= totalRuns r /\
  totalChecks_sum r = 7 * totalRuns r /\
  totalPassed r + totalFailed r = totalChecks_sum r /\
  0 <= totalFailed r /\
  (complianceStatus_of r = COMPLIANT <-> totalPassed r = totalChecks_sum r).
Proof.
  intros Hreport. unfold generateReport in Hreport.
  set (runs := in_window (start_of now (default "24h" period))
                         (history_after worlds [])) in *.
  assert (Hsound : List.Forall sound runs).
  { destruct (history_invariant worlds) as (Hall & _).
    cbv zeta in Hall. rewrite List.Forall_forall in Hall.
    apply List.Forall_forall. intros s Hs. subst runs. unfold in_window in Hs.
    apply in_map_iff in Hs as (e & <- & He).
    apply List.filter_In in He as [He _]. apply Hall, He. }
  destruct (sums_of_sound runs Hsound) as (Ht & Hsum & Hpos).
  destruct (length runs =? 0)%nat eqn:Hlen; [discriminate |].
  apply Nat.eqb_neq in Hlen.
  injection Hreport as <-. simpl.
  rewrite !ComplianceFacts.sum_of_spec.
  split; [lia | split; [exact Ht | split; [exact Hsum | split; [exact Hpos |]]]].
  destruct (Z.eqb_spec (fold_right Z.add 0 (map sum_failed runs)) 0)
    as [Hz | Hnz]; split; intros H; try reflexivity; try discriminate; lia.
Qed.

End Runs.

(** *** The route [GET /status] *)

Section StatusRoute.
Import Routes.

Variable parseInt : string -> float.
Variable numberToString : float -> string.

(** X22.  [GET /status] always answers 200: neither the compliance run nor the
    health check can throw, so the 500 branch is never taken, and neither
    are the placeholder values for a run without checks.  The answer reports
    seven checks, passed and failed adding up to seven, COMPLIANT exactly
    when none failed, and a fixed [totalRuns] of 24 whatever the history
    holds; and every request stores one more run in the monitor's
    history. *)
Theorem status_route_always_answers_200 w p history :
  exists b s,
    Routes.status parseInt numberToString w p history
    = (Status200 b, map_set (store_time w) s history) /\
    Compliance.runContinuousChecks parseInt numberToString w history
    = Resolved (s, map_set (store_time w) s history) /\
    totalChecks b = 7 /\
    Routes.totalPassed b + Routes.totalFailed b = 7 /\
    Routes.totalPassed b = sum_passed s /\
    Routes.totalRuns b = 24 /\
    Routes.averagePassRate b = passRate s /\
    (complianceStatus b = "COMPLIANT" <-> Routes.totalFailed b = 0).
Proof.
  destruct (run_shape parseInt numberToString w history)
    as (i1 & i3 & i4 & i7 & Hrun).
  destruct (summary_sound (summary_time w) i1 i3 i4 i7) as (Ht & Hsum & _).
  set (s := summarize (summary_time w) (results_of i1 i3 i4 i7)) in *.
  clearbody s.
  unfold Routes.status. rewrite Hrun.
  unfold Health.performHealthCheck, mbind, outcome_bind. simpl Promise.bind.
  cbv iota beta. rewrite Ht. change (7 >? 0) with true. cbv iota.
  eexists _, s. split; [reflexivity |]. split; [reflexivity |]. simpl.
  split; [reflexivity | split; [exact Hsum | split; [reflexivity |]]].
  split; [reflexivity | split; [reflexivity |]].
  destruct (Z.eqb_spec (sum_failed s) 0) as [Hz | Hnz];
    split; intros H; try assumption; try reflexivity; try discriminate;
    contradiction.
Qed.

End StatusRoute.

(** *** Concrete runs *)

(** A second run one minute after [healthy], with the database down. *)
Definition a_minute_later : world :=
  {| SECRET_TOKEN := SECRET_TOKEN Scenarios.healthy;
     JWT_EXPIRES_TIME := JWT_EXPIRES_TIME Scenarios.healthy;
     JWT_REFRESH_EXPIRES_TIME := JWT_REFRESH_EXPIRES_TIME Scenarios.healthy;
     readyState := Resolved 0;
     probe_count := Rejected Scenarios.timed_out;
     recent_count := Rejected Scenarios.timed_out;
     total_count := Rejected Scenarios.timed_out;
     create_event := Rejected Scenarios.timed_out;
     create_alert := Rejected Scenarios.timed_out;
     summary_time := 61000;
     store_time := 61002 |}.

(** A full audit tail. *)
Definition full_tail : list AuditTail.entry :=
  repeat (AuditTail.entry_of 0 []) 1000.

Lemma audit_tail_is_bounded_witness :
  exists e,
    AuditTail.auditLog_after parse_decimal show_integer Scenarios.healthy
      1000 full_tail
    = ((if (length full_tail <? 1000)%nat then full_tail
        else skipn 1 full_tail) ++ [e])%list /\
    (length (AuditTail.auditLog_after parse_decimal show_integer
               Scenarios.healthy 1000 full_tail) <= 1000)%nat /\
    AuditTail.entry_timestamp e = 1000 /\
    AuditTail.meta_totalChecks (AuditTail.entry_details e) = 7.
Proof.
  apply (audit_tail_is_bounded parse_decimal show_integer Scenarios.healthy
           1000 full_tail).
  unfold full_tail. rewrite repeat_length. apply le_n.
Defined.

Lemma report_over_own_history_is_consistent_witness :
  match generateReport 120000 (Some "1h")
          (AuditTail.history_after parse_decimal show_integer
             [Scenarios.healthy; a_minute_later] []) with
  | Report r =>
      1 <= totalRuns r /\
      totalChecks_sum r = 7 * totalRuns r /\
      totalPassed r + totalFailed r = totalChecks_sum r /\
      0 <= totalFailed r /\
      (complianceStatus_of r = COMPLIANT <-> totalPassed r = totalChecks_sum r)
  | NoChecksRun _ _ => False
  end.
Proof.
  destruct (generateReport 120000 (Some "1h")
              (AuditTail.history_after parse_decimal show_integer
                 [Scenarios.healthy; a_minute_later] []))
    as [p t | r] eqn:Hreport.
  - vm_compute in Hreport. discriminate Hreport.
  - exact (report_over_own_history_is_consistent parse_decimal show_integer
             [Scenarios.healthy; a_minute_later] 120000 (Some "1h") r
             Hreport).
Defined.

End MonitoringFacts.

(** ** Error handling middleware *)

Module ErrorHandlerFacts.
Import ErrorHandler.

(** X23.  Outside development the answer does not depend on the error beyond
    its status: two errors with the same [status] and [statusCode] get the
    same answer whatever their name, message and stack; no error detail is
    attached; the message is one of seven fixed texts; and the status sent
    is never 0. *)
Theorem production_answer_hides_the_error node_env now err1 err2 req_path :
  node_env <> Some "development" ->
  err_status err1 = err_status err2 ->
  err_statusCode err1 = err_statusCode err2 ->
  secureErrorHandler node_env now err1 req_path
  = secureErrorHandler node_env now err2 req_path /\
  error_detail (secureErrorHandler node_env now err1 req_path) = None /\
  In (body_message (secureErrorHandler node_env now err1 req_path))
     [ "Bad Request - Invalid input provided";
       "Unauthorized - Authentication required";
       "Forbidden - Access denied";
       "Not Found - Resource does not exist";
       "Too Many Requests - Please try again later";
       "Internal Server Error - Something went wrong";
       "An error occurred" ] /\
  statusCode (secureErrorHandler node_env now err1 req_path) <> 0.
Proof.
  intros Henv Hstatus Hcode. unfold secureErrorHandler.
  rewrite Hstatus, Hcode.
  assert (Hdev : match node_env with
                 | Some e => (e =? "development")%string
                 | None => false
                 end = false).
  { destruct node_env as [e |]; [| reflexivity].
    destruct (String.eqb_spec e "development"); [congruence | reflexivity]. }
  rewrite Hdev. simpl.
  split; [reflexivity | split; [reflexivity | split]].
  - unfold errorMessages.
    repeat match goal with
           | |- context [if ?b then _ else _] => destruct b
           end; simpl; tauto.
  - unfold or_number.
    destruct (err_status err2) as [n |];
      [destruct (Z.eqb_spec n 0); [| assumption] |];
      (destruct (err_statusCode err2) as [k |];
       [destruct (Z.eqb_spec k 0); [discriminate | assumption]
       | discriminate]).
Qed.

Definition leaky : error :=
  {| err_name := "MongoServerError";
     err_message := "E11000 duplicate key error collection: shop.users";
     err_stack := "MongoServerError: E11000 at insertOne (users.js:42)";
     err_status := None;
     err_statusCode := Some 400 |}.

Definition plain : error :=
  {| err_name := "Error";
     err_message := "bad input";
     err_stack := "";
     err_status := None;
     err_statusCode := Some 400 |}.

Lemma production_answer_hides_the_error_witness :
  secureErrorHandler (Some "production") 5000 leaky "/login"
  = secureErrorHandler (Some "production") 5000 plain "/login" /\
  error_detail (secureErrorHandler (Some "production") 5000 leaky "/login")
  = None /\
  In (body_message
        (secureErrorHandler (Some "production") 5000 leaky "/login"))
     [ "Bad Request - Invalid input provided";
       "Unauthorized - Authentication required";
       "Forbidden - Access denied";
       "Not Found - Resource does not exist";
       "Too Many Requests - Please try again later";
       "Internal Server Error - Something went wrong";
       "An error occurred" ] /\
  statusCode (secureErrorHandler (Some "production") 5000 leaky "/login")
  <> 0.
Proof.
  apply (production_answer_hides_the_error (Some "production") 5000
           leaky plain "/login").
  - discriminate.
  - reflexivity.
  - reflexivity.
Defined.

Lemma sanitize_free_of input :
  Mask.free_of "$" (sanitizeInput input) = true /\
  Mask.free_of "." (sanitizeInput input) = true.
Proof.
  induction input as [| c rest [IHd IHp]]; simpl; [split; reflexivity |].
  destruct (Ascii.eqb_spec c "$") as [-> | Hd]; simpl; [split; assumption |].
  destruct (Ascii.eqb_spec c ".") as [-> | Hp]; simpl; [split; assumption |].
  rewrite IHd, IHp.
  destruct (Ascii.eqb_spec c "$"); [contradiction |].
  destruct (Ascii.eqb_spec c "."); [contradiction |].
  split; reflexivity.
Qed.

Lemma sanitize_fixes_clean input :
  Mask.free_of "$" input = true ->
  Mask.free_of "." input = true ->
  sanitizeInput input = input.
Proof.
  induction input as [| c rest IH]; simpl; [reflexivity |].
  intros Hd Hp.
  apply andb_prop in Hd as [Hcd Hd]. apply andb_prop in Hp as [Hcp Hp].
  destruct (c =? "$")%char; [discriminate |].
  destruct (c =? ".")%char; [discriminate |].
  simpl. rewrite (IH Hd Hp). reflexivity.
Qed.

Lemma sanitize_length input :
  (String.length (sanitizeInput input) <= String.length input)%nat.
Proof.
  induction input as [| c rest IH]; simpl; [lia |].
  destruct ((c =? "$")%char || (c =? ".")%char); simpl; lia.
Qed.

(** X24.  What [sanitizeInput] returns contains neither a dollar sign nor a dot;
    sanitising twice is the same as sanitising once; a string is returned
    unchanged exactly when it had neither character; and the result is never
    longer than the input. *)
Theorem sanitizeInput_removes_operators input :
  Mask.free_of "$" (sanitizeInput input) = true /\
  Mask.free_of "." (sanitizeInput input) = true /\
  sanitizeInput (sanitizeInput input) = sanitizeInput input /\
  (sanitizeInput input = input <->
   Mask.free_of "$" input = true /\ Mask.free_of "." input = true) /\
  (String.length (sanitizeInput input) <= String.length input)%nat.
Proof.
  destruct (sanitize_free_of input) as [Hd Hp].
  split; [exact Hd | split; [exact Hp | split; [| split]]].
  - apply sanitize_fixes_clean; assumption.
  - split.
    + intros Heq. rewrite <- Heq. split; assumption.
    + intros [Hcd Hcp]. apply sanitize_fixes_clean; assumption.
  - apply sanitize_length.
Qed.

End ErrorHandlerFacts.

(** ** Input validation *)

Module ValidationFacts.
Import Validation.





End ValidationFacts.
